(** * crypto_news: the feed normalizer, the refresh loop, the TTL cache and
      the JSON handlers of [crypto_news.py], embedded in Rocq.

    Conventions of the embedding.
    - A Python [str] is the [string] of its UTF-8 bytes.  The operations the
      program applies to text ([re.sub], [str.split], [str.strip]) only test
      for ASCII characters and for white space, and both are recognisable on
      the encoded bytes.
    - A Python value that may be [None] is a [pyval]; a [dict] with a fixed
      set of keys is a record; a [dict] used as a map is a [gmap].
    - [datetime] values are integers counting microseconds, the resolution of
      [datetime.now()]; [timedelta(seconds=n)] is [n * 1000000].
    - A computation that may raise is a [result]; an [except Exception]
      clause is the [Raise] branch of a match on it. *)

From Stdlib Require Import ZArith Lia Strings.String Strings.Ascii
  Numbers.DecimalString Numbers.DecimalPos Numbers.DecimalZ.
From stdpp Require Import gmap strings list.


(** ** Python values *)

Inductive pyval :=
| PyNone
| PyStr (s : string).

Definition is_str (v : pyval) : bool :=
  match v with
  | PyStr _ => true
  | PyNone => false
  end.

(** ** Text operations of the Python runtime *)

Module PyText.

Definition code (c : ascii) : N := N_of_ascii c.

Definition between (lo hi b : N) : bool := ((lo <=? b) && (b <=? hi))%N.

(** The characters [str.split()] and [str.strip()] treat as white space:
    U+0009..U+000D, U+001C..U+0020, U+0085, U+00A0, U+1680, U+2000..U+200A,
    U+2028, U+2029, U+202F, U+205F and U+3000.  [space_len s] is the number
    of bytes of the white-space character [s] starts with, [0] when it
    starts with none. *)
Definition space_len (s : string) : nat :=
  match s with
  | String c1 r1 =>
      let b1 := code c1 in
      if between 9 13 b1 || between 28 32 b1 then 1
      else
        match r1 with
        | String c2 r2 =>
            let b2 := code c2 in
            if ((b1 =? 194) && ((b2 =? 133) || (b2 =? 160)))%N then 2
            else
              match r2 with
              | String c3 _ =>
                  let b3 := code c3 in
                  if ((b1 =? 225) && (b2 =? 154) && (b3 =? 128))%N
                     || ((b1 =? 226) && (b2 =? 128)
                         && (between 128 138 b3 || (b3 =? 168) || (b3 =? 169)
                             || (b3 =? 175)))%N
                     || ((b1 =? 226) && (b2 =? 129) && (b3 =? 159))%N
                     || ((b1 =? 227) && (b2 =? 128) && (b3 =? 128))%N
                  then 3
                  else 0
              | EmptyString => 0
              end
        | EmptyString => 0
        end
  | EmptyString => 0
  end.

Definition snoc (s : string) (c : ascii) : string := s +:+ String c "".

Definition flush (word : string) : list string :=
  match word with
  | EmptyString => []
  | _ => [word]
  end.

(** [text.split()]: the maximal runs of characters that are not white space.
    [skip] counts the bytes still to be dropped of the white-space character
    being read, [word] is the run read so far. *)
Fixpoint split_ws (skip : nat) (word : string) (s : string) : list string :=
  match s with
  | EmptyString => flush word
  | String c r =>
      match skip with
      | S k => split_ws k word r
      | O =>
          match space_len s with
          | O => split_ws O (snoc word c) r
          | S k => flush word ++ split_ws k "" r
          end
      end
  end.

Definition split (s : string) : list string := split_ws 0 "" s.

(** [sep.join(l)] *)
Fixpoint join (sep : string) (l : list string) : string :=
  match l with
  | [] => ""
  | [x] => x
  | x :: r => x +:+ sep +:+ join sep r
  end.

(** [s.split(sep)] for a non-empty [sep]: the pieces between the
    occurrences of [sep], found from the left and not overlapping. *)
Fixpoint split_on (sep : string) (skip : nat) (piece : string) (s : string)
  : list string :=
  match s with
  | EmptyString => [piece]
  | String c r =>
      match skip with
      | S k => split_on sep k piece r
      | O =>
          if String.prefix sep s
          then piece :: split_on sep (String.length sep - 1) "" r
          else split_on sep 0 (snoc piece c) r
      end
  end.

Definition split_sep (sep s : string) : list string := split_on sep 0 "" s.

(** [sep in s] *)
Fixpoint contains (sep s : string) : bool :=
  match s with
  | EmptyString => String.prefix sep ""
  | String _ r => String.prefix sep s || contains sep r
  end.

(** [l[-1]] of a list that [split_sep] produced (it is never empty). *)
Definition last_piece (l : list string) : string := List.last l "".

Fixpoint lstrip_from (skip : nat) (s : string) : string :=
  match s with
  | EmptyString => ""
  | String c r =>
      match skip with
      | S k => lstrip_from k r
      | O =>
          match space_len s with
          | O => s
          | S k => lstrip_from k r
          end
      end
  end.

Fixpoint all_space (skip : nat) (s : string) : bool :=
  match s with
  | EmptyString => true
  | String c r =>
      match skip with
      | S k => all_space k r
      | O =>
          match space_len s with
          | O => false
          | S k => all_space k r
          end
      end
  end.

Fixpoint rstrip (s : string) : string :=
  match s with
  | EmptyString => ""
  | String c r => if all_space 0 s then "" else String c (rstrip r)
  end.

(** [s.strip()] *)
Definition strip (s : string) : string := rstrip (lstrip_from 0 s).

(** The pattern [<.*?>] tried just after a [<]: [.] is any character but a
    newline and the star is lazy, so the match ends at the first [>] and
    fails when a newline or the end of the text comes first.
    [tag_rest s] is the number of characters matched after the [<]. *)
Fixpoint tag_rest (s : string) : option nat :=
  match s with
  | EmptyString => None
  | String c r =>
      if Ascii.eqb c ">" then Some 1
      else if Ascii.eqb c "010" then None
      else S <$> tag_rest r
  end.

(** [re.sub('<.*?>', '', s)]: matches are searched from the left; a matched
    span is dropped and the search resumes after it, an unmatched character
    is kept. *)
Fixpoint sub_tags (skip : nat) (s : string) : string :=
  match s with
  | EmptyString => ""
  | String c r =>
      match skip with
      | S k => sub_tags k r
      | O =>
          if Ascii.eqb c "<"
          then match tag_rest r with
               | Some n => sub_tags n r
               | None => String c (sub_tags 0 r)
               end
          else String c (sub_tags 0 r)
      end
  end.

End PyText.

(** ** Record normalizer *)

(** One [<item>] of the parsed feed: for each child element the program
    reads, its text, or [None] when the item has no such child
    ([item.title], [item.description], [item.pubDate]). *)
Record RawItem := {
  raw_title : option string;
  raw_description : option string;
  raw_pubDate : option string
}.

(** The dict built for each item (lines 91-97). *)
Record NewsItem := {
  title : pyval;
  link : pyval;
  published_date : pyval;
  summary : pyval;
  source : pyval
}.

(** [clean_html] (lines 62-66) *)
Definition clean_html (raw_html : string) : string :=
  let text := PyText.sub_tags 0 raw_html in
  PyText.join " " (PyText.split text).

Definition anchor_close : string := "</a>".

Section Normalizer.

(** [BeautifulSoup(html_text, 'lxml').find('a')]: the attribute dict of the
    first anchor element of the markup, [None] when it has no anchor.  The
    HTML parser is a library outside the repository. *)
Variable find_a : string -> option (gmap string string).

(** [extract_link] (lines 68-72).  A [Tag] is always truthy, and
    [link.get('href')] is [None] for an anchor without that attribute. *)
Definition extract_link (html_text : string) : pyval :=
  match find_a html_text with
  | Some attrs =>
      match attrs !! "href" with
      | Some href => PyStr href
      | None => PyNone
      end
  | None => PyStr ""
  end.

Definition text_or_empty (field : option string) : string :=
  match field with
  | Some text => text
  | None => ""
  end.

(** The expression of line 89, before the [strip] of line 96. *)
Definition source_of (summary_html : string) : string :=
  match summary_html with
  | EmptyString => ""
  | _ =>
      clean_html
        (PyText.last_piece (PyText.split_sep anchor_close summary_html))
  end.

(** The body of the loop over the items (lines 87-97). *)
Definition normalize (item : RawItem) : NewsItem :=
  let summary_html := text_or_empty (raw_description item) in
  let summary := clean_html summary_html in
  let source := source_of summary_html in
  {| title := PyStr (text_or_empty (raw_title item));
     link := extract_link summary_html;
     published_date := PyStr (text_or_empty (raw_pubDate item));
     summary := PyStr summary;
     source := PyStr (PyText.strip source) |}.

End Normalizer.

(** ** A reader of anchor start tags

    A concrete stand-in for the HTML library on plain markup: it finds the
    first start tag named [a] and reads its attributes, written
    [name="value"], [name='value'], [name=value] or [name]. *)

Module SimpleHtml.

Definition is_space (c : ascii) : bool :=
  PyText.between 9 13 (PyText.code c) || Ascii.eqb c " ".

Definition ends_name (c : ascii) : bool :=
  is_space c || Ascii.eqb c ">" || Ascii.eqb c "=" || Ascii.eqb c "/".

Definition ends_bare_value (c : ascii) : bool :=
  is_space c || Ascii.eqb c ">".

Fixpoint take_until (stop : ascii -> bool) (s : string) : string * string :=
  match s with
  | EmptyString => ("", "")
  | String c r =>
      if stop c then ("", s)
      else let '(taken, rest) := take_until stop r in (String c taken, rest)
  end.

Definition tail (s : string) : string :=
  match s with
  | EmptyString => ""
  | String _ r => r
  end.

(** The first occurrence of an attribute wins. *)
Definition add_attr (name value : string) (attrs : gmap string string)
  : gmap string string :=
  match attrs !! name with
  | Some _ => attrs
  | None => <[name := value]> attrs
  end.

Fixpoint attrs_of (fuel : nat) (s : string) (attrs : gmap string string)
  : gmap string string :=
  match fuel with
  | O => attrs
  | S fuel' =>
      match s with
      | EmptyString => attrs
      | String c r =>
          if Ascii.eqb c ">" then attrs
          else if is_space c || Ascii.eqb c "/" || Ascii.eqb c "="
          then attrs_of fuel' r attrs
          else
            let '(name, rest) := take_until ends_name s in
            match rest with
            | String "=" (String q v) =>
                if Ascii.eqb q "034" || Ascii.eqb q "'"
                then
                  let '(value, rest') := take_until (Ascii.eqb q) v in
                  attrs_of fuel' (tail rest') (add_attr name value attrs)
                else
                  let '(value, rest') :=
                    take_until ends_bare_value (String q v) in
                  attrs_of fuel' rest' (add_attr name value attrs)
            | _ => attrs_of fuel' rest (add_attr name "" attrs)
            end
      end
  end.

Definition starts_attrs (s : string) : bool :=
  match s with
  | EmptyString => false
  | String c _ => is_space c || Ascii.eqb c ">" || Ascii.eqb c "/"
  end.

Fixpoint find_a (s : string) : option (gmap string string) :=
  match s with
  | EmptyString => None
  | String c r =>
      if Ascii.eqb c "<"
      then
        match r with
        | String n r' =>
            if (Ascii.eqb n "a" || Ascii.eqb n "A") && starts_attrs r'
            then Some (attrs_of (String.length r') r' ∅)
            else find_a r
        | EmptyString => None
        end
      else find_a r
  end.

End SimpleHtml.

(** ** Feed fetcher *)

(** The exceptions the body of [fetch_news] can raise: a failed request
    ([requests.exceptions.RequestException]), a refused status
    ([requests.exceptions.HTTPError]) and a failed parse.  All of them derive
    from [Exception]. *)
Inductive exn :=
| RequestException (msg : string)
| HTTPError (status_code : Z)
| ParserError (msg : string).

Inductive result (A : Type) :=
| Ret (a : A)
| Raise (e : exn).

Arguments Ret {A} a.
Arguments Raise {A} e.

(** Sequencing: a raised exception skips the rest of the block. *)
#[global] Instance result_bind : MBind result :=
  fun A B (k : A -> result B) (r : result A) =>
    match r with
    | Ret a => k a
    | Raise e => Raise e
    end.

(** What [BeautifulSoup(response.content, features='xml')] followed by
    [find_all('item')] makes of the body of a response. *)
Inductive parse_outcome :=
| ParseFailure (msg : string)
| Parsed (items : list RawItem).

(** What the one network call of a cycle comes back with. *)
Inductive net_outcome :=
| NetFailure (msg : string)
| Response (status_code : Z) (content : parse_outcome).

Record http_response := {
  resp_status : Z;
  resp_content : parse_outcome
}.

Definition str_int (z : Z) : string := NilZero.string_of_int (Z.to_int z).

(** [str(e)], abridged: for a refused status the library's message also
    names the kind of error, the reason phrase and the URL. *)
Definition str_exn (e : exn) : string :=
  match e with
  | RequestException msg => msg
  | HTTPError status_code => str_int status_code +:+ " Error"
  | ParserError msg => msg
  end.

Section Fetcher.

Variable find_a : string -> option (gmap string string).

(** [requests.get(url)] *)
Definition requests_get (o : net_outcome) : result http_response :=
  match o with
  | NetFailure msg => Raise (RequestException msg)
  | Response status_code content =>
      Ret {| resp_status := status_code; resp_content := content |}
  end.

(** [response.raise_for_status()]: raises for the statuses 400 to 599. *)
Definition raise_for_status (r : http_response) : result unit :=
  if (400 <=? resp_status r)%Z && (resp_status r <? 600)%Z
  then Raise (HTTPError (resp_status r))
  else Ret tt.

Definition find_all_items (r : http_response) : result (list RawItem) :=
  match resp_content r with
  | ParseFailure msg => Raise (ParserError msg)
  | Parsed items => Ret items
  end.

(** The [try] block of [fetch_news] (lines 79-100). *)
Definition fetch_body (o : net_outcome) : result (list NewsItem) :=
  response ← requests_get o;
  _ ← raise_for_status response;
  items ← find_all_items response;
  Ret (map (normalize find_a) items).

(** [fetch_news] (lines 74-104): what it returns or raises, and the lines
    it sends to [logger.error].  The [except Exception] clause of line 102
    takes every exception of [exn]. *)
Definition fetch_news (o : net_outcome)
  : result (list NewsItem) * list string :=
  match fetch_body o with
  | Ret news_items => (Ret news_items, [])
  | Raise e => (Ret [], ["Error fetching news: " +:+ str_exn e])
  end.

End Fetcher.

(** ** The snapshot and the refresh loop *)

(** The module-level dict [cache] (lines 22-26). *)
Record Cache := {
  news : list NewsItem;
  last_update : option Z;
  cache_duration : Z
}.

Definition initial_cache : Cache :=
  {| news := []; last_update := None; cache_duration := 300%Z |}.

(** [cache['news'] = news_items] *)
Definition set_news (news_items : list NewsItem) (c : Cache) : Cache :=
  {| news := news_items;
     last_update := last_update c;
     cache_duration := cache_duration c |}.

(** [cache['last_update'] = now] *)
Definition set_last_update (now : Z) (c : Cache) : Cache :=
  {| news := news c;
     last_update := Some now;
     cache_duration := cache_duration c |}.

(** Where the thread running [update_cache] stands: before the statement of
    line 110, 111, 112, 113, 114 or 118.  Another thread can run between
    any two of them. *)
Inductive pc :=
| AtFetch
| AtTest (news_items : list NewsItem)
| AtSetNews (news_items : list NewsItem)
| AtSetTime
| AtLog
| AtSleep.

Record refresher := {
  at_ : pc;
  shared : Cache;
  logged : list string
}.

(** What the outside world supplies to one statement: the outcome of the
    request when the statement is the fetch, and the reading of the clock. *)
Record input := {
  in_net : net_outcome;
  in_now : Z
}.

(** The time as the log line of line 114 shows it; the layout of the date
    is left out, the line carries the count of microseconds. *)
Definition str_time (t : option Z) : string :=
  match t with
  | Some t => str_int t
  | None => "None"
  end.

Definition start (c : Cache) (lg : list string) : refresher :=
  {| at_ := AtFetch; shared := c; logged := lg |}.

Section Refresh.

Variable find_a : string -> option (gmap string string).

(** One statement of the loop body of [update_cache] (lines 108-118). *)
Definition exec (i : input) (s : refresher) : refresher :=
  match at_ s with
  | AtFetch =>
      match fetch_news find_a (in_net i) with
      | (Ret news_items, lines) =>
          {| at_ := AtTest news_items; shared := shared s;
             logged := logged s ++ lines |}
      | (Raise e, lines) =>
          {| at_ := AtSleep; shared := shared s;
             logged := logged s ++ lines
                       ++ ["Error updating cache: " +:+ str_exn e] |}
      end
  | AtTest news_items =>
      match news_items with
      | [] => {| at_ := AtSleep; shared := shared s; logged := logged s |}
      | _ :: _ =>
          {| at_ := AtSetNews news_items; shared := shared s;
             logged := logged s |}
      end
  | AtSetNews news_items =>
      {| at_ := AtSetTime; shared := set_news news_items (shared s);
         logged := logged s |}
  | AtSetTime =>
      {| at_ := AtLog; shared := set_last_update (in_now i) (shared s);
         logged := logged s |}
  | AtLog =>
      {| at_ := AtSleep; shared := shared s;
         logged := logged s
                   ++ ["Cache updated at "
                       +:+ str_time (last_update (shared s))] |}
  | AtSleep =>
      {| at_ := AtFetch; shared := shared s; logged := logged s |}
  end.

(** A step inside one cycle: any statement but the sleep that ends it. *)
Definition cycle_step (s s' : refresher) : Prop :=
  at_ s ≠ AtSleep ∧ ∃ i, s' = exec i s.

(** The states of the cycle that starts from the snapshot [c] and whose
    fetch meets the outcome [in_net i]: every point at which a handler can
    read the snapshot. *)
Definition in_cycle (i : input) (c : Cache) (lg : list string) (s : refresher)
  : Prop :=
  rtc cycle_step (exec i (start c lg)) s.

(** The loop run on a list of inputs, one per statement. *)
Definition run (inputs : list input) (s : refresher) : refresher :=
  foldl (fun s i => exec i s) s inputs.

End Refresh.

(** The two keys of the dict in one state of the loop: what a handler gets
    whose reads all fall at that point.  A handler whose reads fall at
    different points is [get_news_reading] below. *)
Definition view (s : refresher) : list NewsItem * option Z :=
  (news (shared s), last_update (shared s)).

(** ** The keyed TTL cache, [NewsCache] (lines 28-43) *)

Definition timedelta_seconds (seconds : Z) : Z := (seconds * 1000000)%Z.

Section NewsCache.

Context {K : Type} `{Countable K} {V : Type}.

(** The dict stored under a key; [data] is any Python value, [None] too. *)
Record entry := {
  data : option V;
  expiry : Z
}.

(** [NewsCache.get], with the reading of [datetime.now()] *)
Definition cache_get (now : Z) (key : K) (store : gmap K entry) : option V :=
  match store !! key with
  | Some item => if (now <? expiry item)%Z then data item else None
  | None => None
  end.

(** [NewsCache.set], with the reading of [datetime.now()] *)
Definition cache_set (now : Z) (key : K) (value : option V) (ttl_seconds : Z)
    (store : gmap K entry) : gmap K entry :=
  <[key := {| data := value;
              expiry := (now + timedelta_seconds ttl_seconds)%Z |}]> store.

End NewsCache.

Arguments entry V : clear implicits.

(** ** Python identifiers *)

Definition ident_char (c : ascii) : bool :=
  let b := PyText.code c in
  PyText.between 48 57 b || PyText.between 65 90 b || PyText.between 97 122 b
  || (b =? 95)%N || (128 <=? b)%N.

Fixpoint all_chars (p : ascii -> bool) (s : string) : bool :=
  match s with
  | EmptyString => true
  | String c r => p c && all_chars p r
  end.

(** A name as [def] and keyword arguments take it: letters, digits and the
    underscore, not starting with a digit; the bytes of a letter outside
    ASCII count as letters. *)
Definition is_identifier (s : string) : bool :=
  match s with
  | EmptyString => false
  | String c _ =>
      negb (PyText.between 48 57 (PyText.code c)) && all_chars ident_char s
  end.

(** ** Memoization, [cache_response] (lines 47-60) *)

(** A function object, as far as the decorator looks at it: two functions
    are the same object when module and name agree; [__name__] is the name
    alone. *)
Record pyfunc := {
  fn_module : string;
  fn_name : string
}.

(** What [str] of a tuple of integers puts between the brackets: nothing,
    [1,] for a single element, [1, 2] for more. *)
Definition tuple_body (args : list Z) : string :=
  match args with
  | [] => ""
  | [x] => str_int x +:+ ","
  | _ => PyText.join ", " (map str_int args)
  end.

(** [str(args)]: [()], [(1,)], [(1, 2)]. *)
Definition str_tuple (args : list Z) : string :=
  "(" +:+ tuple_body args +:+ ")".

Definition str_item (kv : string * Z) : string :=
  "'" +:+ kv.1 +:+ "': " +:+ str_int kv.2.

(** [str(kwargs)] for keyword arguments with integer values, in the order
    they were passed: [{}], [{'count': 5}]. *)
Definition dict_body (kwargs : list (string * Z)) : string :=
  PyText.join ", " (map str_item kwargs).

Definition str_dict (kwargs : list (string * Z)) : string :=
  "{" +:+ dict_body kwargs +:+ "}".

(** Line 51. *)
Definition cache_key (f : pyfunc) (args : list Z) (kwargs : list (string * Z))
  : string :=
  fn_name f +:+ str_tuple args +:+ str_dict kwargs.

(** The body of [wrapper] (lines 51-58).  [call tt] is the call of [f] on
    [args] and [kwargs],
    [t_get] and [t_set] are the readings of the clock inside
    [news_cache.get] and [news_cache.set]. *)
Definition wrapper {V : Type} (ttl_seconds : Z) (f : pyfunc)
    (args : list Z) (kwargs : list (string * Z)) (call : unit -> option V)
    (t_get t_set : Z) (store : gmap string (entry V))
  : option V * gmap string (entry V) :=
  let key := cache_key f args kwargs in
  match cache_get t_get key store with
  | Some response => (Some response, store)
  | None =>
      let response := call tt in
      (response, cache_set t_set key response ttl_seconds store)
  end.

(** ** The JSON handlers *)

(** What [jsonify] is given, and the headers the handler sets on the
    response object. *)
Record response := {
  body_status : string;
  body_last_update : option string;
  body_count : Z;
  body_news : list NewsItem;
  headers : list (string * string)
}.

(** [l[:count]] for any Python integer [count]. *)
Definition slice_to {A : Type} (count : Z) (l : list A) : list A :=
  if (count <? 0)%Z
  then take (Z.to_nat (Z.of_nat (length l) + count)) l
  else take (Z.to_nat count) l.

Definition len {A : Type} (l : list A) : Z := Z.of_nat (length l).

Section Handlers.

(** [t.strftime(fmt)], left to the runtime. *)
Variable strftime : Z -> string -> string.

Definition formatted (fmt : string) (t : option Z) : option string :=
  match t with
  | Some t => Some (strftime t fmt)
  | None => None
  end.

(** [get_news] without its decorators (lines 139-153). *)
Definition get_news (cache : Cache) : response :=
  {| body_status := "success";
     body_last_update := formatted "%Y-%m-%d %H:%M:%S" (last_update cache);
     body_count := len (news cache);
     body_news := news cache;
     headers :=
       [("Cache-Control", "public, max-age=300");
        ("X-Cache-Hit", match news cache with [] => "false" | _ => "true" end);
        ("Last-Modified",
         match last_update cache with
         | Some t => strftime t "%a, %d %b %Y %H:%M:%S GMT"
         | None => ""
         end)] |}.

(** [get_latest_news] without its decorators (lines 157-167). *)
Definition get_latest_news (cache : Cache) (count : Z) : response :=
  {| body_status := "success";
     body_last_update := formatted "%Y-%m-%d %H:%M:%S" (last_update cache);
     body_count := Z.min count (len (news cache));
     body_news := slice_to count (news cache);
     headers := [("Cache-Control", "public, max-age=300")] |}.

Definition get_news_fn : pyfunc :=
  {| fn_module := "crypto_news"; fn_name := "get_news" |}.

Definition get_latest_news_fn : pyfunc :=
  {| fn_module := "crypto_news"; fn_name := "get_latest_news" |}.

(** The process: the snapshot and the module-level [news_cache]. *)
Record app := {
  snapshot : Cache;
  news_cache : gmap string (entry response)
}.

Definition initial_app : app :=
  {| snapshot := initial_cache; news_cache := ∅ |}.

(** [GET /news]: the decorated [get_news], called without arguments. *)
Definition news_view (t_get t_set : Z) (a : app) : option response * app :=
  let '(r, store) :=
    wrapper 300 get_news_fn [] []
      (fun _ => Some (get_news (snapshot a))) t_get t_set (news_cache a) in
  (r, {| snapshot := snapshot a; news_cache := store |}).

(** [GET /news/latest/<int:count>]: the route converter accepts digits only
    and hands the decorated [get_latest_news] the keyword argument
    [count], a natural number. *)
Definition latest_view (count : N) (t_get t_set : Z) (a : app)
  : option response * app :=
  let '(r, store) :=
    wrapper 300 get_latest_news_fn [] [("count", Z.of_N count)]
      (fun _ => Some (get_latest_news (snapshot a) (Z.of_N count)))
      t_get t_set (news_cache a) in
  (r, {| snapshot := snapshot a; news_cache := store |}).

(** What happens to the process between two moments: the refresh thread
    writes the snapshot, or a request is served. *)
Inductive event :=
| Refreshed (c : Cache)
| GetNews (t_get t_set : Z)
| GetLatest (count : N) (t_get t_set : Z).

Definition serve (ev : event) (a : app) : option response * app :=
  match ev with
  | Refreshed c => (None, {| snapshot := c; news_cache := news_cache a |})
  | GetNews t_get t_set => news_view t_get t_set a
  | GetLatest count t_get t_set => latest_view count t_get t_set a
  end.

(** The responses sent along a history, and the state it leaves. *)
Fixpoint history (evs : list event) (a : app) : list response * app :=
  match evs with
  | [] => ([], a)
  | ev :: evs' =>
      let '(r, a') := serve ev a in
      let '(rs, a'') := history evs' a' in
      (match r with Some r => r :: rs | None => rs end, a'')
  end.

End Handlers.

(** The count a response reports is the length of the list it carries. *)
Definition well_counted (r : response) : Prop :=
  body_count r = len (body_news r).

(** ** The status handler *)

(** What [get_status] gives [jsonify] (lines 170-178). *)
Record status_body := {
  st_status : string;
  st_last_update : option string;
  st_total_news_count : Z;
  st_cache_duration : Z;
  st_uptime : string
}.

Section Status.

Variable strftime : Z -> string -> string.

(** [get_status]; the route is not memoized. *)
Definition get_status (cache : Cache) : status_body :=
  {| st_status := "active";
     st_last_update :=
       formatted strftime "%Y-%m-%d %H:%M:%S" (last_update cache);
     st_total_news_count := len (news cache);
     st_cache_duration := cache_duration cache;
     st_uptime := "Running on Render" |}.

End Status.

(** ** [get_news] read by read *)

(** The states of the shared dict that the reads of [get_news] meet, in the
    order of the reads: line 143 (the test of the conditional, then its
    value), 144, 145, 150 and 151 (test, then value).  The refresh thread
    can run between any two of them. *)
Record news_reads := {
  rd_143_test : Cache;
  rd_143 : Cache;
  rd_144 : Cache;
  rd_145 : Cache;
  rd_150 : Cache;
  rd_151_test : Cache;
  rd_151 : Cache
}.

(** All the reads meet the one state [c]. *)
Definition reads_at (c : Cache) : news_reads :=
  {| rd_143_test := c; rd_143 := c; rd_144 := c; rd_145 := c;
     rd_150 := c; rd_151_test := c; rd_151 := c |}.

Section Reading.

Variable strftime : Z -> string -> string.

(** [cache['last_update'].strftime(fmt) if cache['last_update'] else
    default], the dict read once for the test and once for the value;
    [None] stands for the [AttributeError] of [None.strftime]. *)
Definition strftime_if {A : Type} (fmt : string) (default : A)
    (wrap : string -> A) (test value : Cache) : option A :=
  match last_update test with
  | None => Some default
  | Some _ =>
      match last_update value with
      | Some t => Some (wrap (strftime t fmt))
      | None => None
      end
  end.

(** [get_news] (lines 139-153) with each read of the dict at its own
    state; [None] when it raises. *)
Definition get_news_reading (r : news_reads) : option response :=
  match strftime_if "%Y-%m-%d %H:%M:%S" None Some (rd_143_test r) (rd_143 r)
  with
  | None => None
  | Some shown =>
      match strftime_if "%a, %d %b %Y %H:%M:%S GMT" "" (fun text => text)
              (rd_151_test r) (rd_151 r)
      with
      | None => None
      | Some modified =>
          Some {| body_status := "success";
                  body_last_update := shown;
                  body_count := len (news (rd_144 r));
                  body_news := news (rd_145 r);
                  headers :=
                    [("Cache-Control", "public, max-age=300");
                     ("X-Cache-Hit",
                      match news (rd_150 r) with
                      | [] => "false"
                      | _ => "true"
                      end);
                     ("Last-Modified", modified)] |}
      end
  end.

End Reading.

Section Interleaving.

Variable find_a : string -> option (gmap string string).

(** The reads of a handler that runs beside [update_cache]: before the
    first read and between two reads the thread executes the statements
    of [g0], ..., [g6]. *)
Definition reads_along (s : refresher) (g0 g1 g2 g3 g4 g5 g6 : list input)
  : news_reads :=
  let s1 := run find_a g0 s in
  let s2 := run find_a g1 s1 in
  let s3 := run find_a g2 s2 in
  let s4 := run find_a g3 s3 in
  let s5 := run find_a g4 s4 in
  let s6 := run find_a g5 s5 in
  let s7 := run find_a g6 s6 in
  {| rd_143_test := shared s1; rd_143 := shared s2; rd_144 := shared s3;
     rd_145 := shared s4; rd_150 := shared s5; rd_151_test := shared s6;
     rd_151 := shared s7 |}.

End Interleaving.

(** ** The fetcher of the dashboard, [crypto_news_app.py] (lines 53-92) *)

(** A row of the frame the dashboard builds (lines 79-85). *)
Record DashRow := {
  row_title : string;
  row_link : string;
  row_source : string;
  row_published_date : string;
  row_timestamp : Z
}.

Section Dashboard.

(** [BeautifulSoup(html, 'html.parser').find('a')] and
    [BeautifulSoup(html, 'html.parser').get_text()], of the HTML library;
    the parser raises on some markup. *)
Variable find_a : string -> result (option (gmap string string)).
Variable get_text : string -> result string.

(** [pd.to_datetime(text)]: the time read off the text, [None] when the
    library raises on it; and the reading of [pd.Timestamp.now()]. *)
Variable to_datetime : string -> option Z.
Variable timestamp_now : Z.

(** Lines 69-71. *)
Definition dash_source (summary_html : string) : result string :=
  if PyText.contains anchor_close summary_html
  then
    text ← get_text
             (PyText.last_piece (PyText.split_sep anchor_close summary_html));
    Ret (PyText.strip text)
  else Ret "".

(** Lines 74-77: [link_tag.get('href', '')]. *)
Definition dash_link (summary_html : string) : result string :=
  link_tag ← find_a summary_html;
  Ret match link_tag with
      | Some attrs =>
          match attrs !! "href" with
          | Some href => href
          | None => ""
          end
      | None => ""
      end.

(** Line 84. *)
Definition dash_timestamp (pubDate : option string) : result Z :=
  match pubDate with
  | Some text =>
      match to_datetime text with
      | Some t => Ret t
      | None => Raise (ParserError text)
      end
  | None => Ret timestamp_now
  end.

(** The body of the loop (lines 66-86). *)
Definition dash_row (item : RawItem) : result DashRow :=
  let summary_html := text_or_empty (raw_description item) in
  source ← dash_source summary_html;
  link ← dash_link summary_html;
  t ← dash_timestamp (raw_pubDate item);
  Ret {| row_title := text_or_empty (raw_title item);
         row_link := link;
         row_source := source;
         row_published_date := text_or_empty (raw_pubDate item);
         row_timestamp := t |}.

(** The loop: the rows in the order of the items, up to the first item
    that raises. *)
Fixpoint dash_rows (items : list RawItem) : result (list DashRow) :=
  match items with
  | [] => Ret []
  | item :: rest =>
      row ← dash_row item;
      rows ← dash_rows rest;
      Ret (row :: rows)
  end.

(** The [try] block (lines 58-88). *)
Definition dash_fetch_body (o : net_outcome) : result (list DashRow) :=
  response ← requests_get o;
  _ ← raise_for_status response;
  items ← find_all_items response;
  dash_rows items.

(** [fetch_news] of the dashboard, without its decorator: the rows of the
    frame it returns and the messages it hands to [st.error]. *)
Definition dash_fetch_news (o : net_outcome) : list DashRow * list string :=
  match dash_fetch_body o with
  | Ret rows => (rows, [])
  | Raise e => ([], ["Error fetching news: " +:+ str_exn e])
  end.

End Dashboard.

(** * Statements

    The predicates the properties are stated with, and the values they are
    tried on. *)

(** While a cycle whose fetch came back empty runs, the thread is at the
    test or at the sleep and the dict is the one the cycle started with. *)
Definition idle_on (c : Cache) (s : refresher) : Prop :=
  shared s = c ∧ (at_ s = AtTest [] ∨ at_ s = AtSleep).

(** The points of a cycle whose fetch brought [items], by the statement the
    thread stands before. *)
Definition cycle_point (c : Cache) (items : list NewsItem) (s : refresher)
  : Prop :=
  match at_ s with
  | AtTest news_items => news_items = items ∧ shared s = c
  | AtSetNews news_items => news_items = items ∧ shared s = c
  | AtSetTime => shared s = set_news items c
  | AtLog | AtSleep => ∃ t, shared s = set_last_update t (set_news items c)
  | AtFetch => False
  end.

(** A snapshot of one item, stored one second after the start. *)
Definition stale_item : NewsItem :=
  {| title := PyStr "Bitcoin steady"; link := PyStr "http://old";
     published_date := PyStr "Mon, 02 Nov 2026 10:00:00 GMT";
     summary := PyStr "Bitcoin steady"; source := PyStr "Outlet" |}.

Definition stale_cache : Cache :=
  {| news := [stale_item]; last_update := Some 1000000%Z;
     cache_duration := 300%Z |}.

(** A cycle whose request fails. *)
Definition failed_input : input :=
  {| in_net := NetFailure "connection refused"; in_now := 301000000%Z |}.

(** The reading of C9: a handler that reads the dict at a point of a cycle
    sees either the items and the time the cycle started with, or the
    fetched items with a time of update. *)
Definition whole_snapshot (old : Cache) (items : list NewsItem)
    (s : refresher) : Prop :=
  view s = (news old, last_update old) ∨ ∃ t, view s = (items, Some t).

(** A cycle whose request brings a feed of one item. *)
Definition fresh_raw : RawItem :=
  {| raw_title := Some "Ether climbs"; raw_description := Some "Ether climbs";
     raw_pubDate := Some "Tue, 03 Nov 2026 09:00:00 GMT" |}.

Definition fresh_input : input :=
  {| in_net := Response 200 (Parsed [fresh_raw]); in_now := 5000000%Z |}.

Definition fresh_items : list NewsItem :=
  [normalize SimpleHtml.find_a fresh_raw].

(** The state two statements after the fetch: line 112 has run, line 113
    has not. *)
Definition torn_state : refresher :=
  run SimpleHtml.find_a [fresh_input; fresh_input; fresh_input]
    (start initial_cache []).

(** The invariant of [news_cache]: every response kept in it reports the
    length of its list. *)
Definition memo_ok (store : gmap string (entry response)) : Prop :=
  ∀ k e r, store !! k = Some e → data e = Some r → well_counted r.


(** A stand-in for [strftime] where the text of the date does not matter. *)
Definition no_format : Z → string → string := fun _ _ => "".


(** A process with a snapshot of one item and nothing memoized. *)
Definition one_item_app : app :=
  {| snapshot := stale_cache; news_cache := ∅ |}.

(** An item whose description has an anchor without [href]. *)
Definition bare_anchor_item : RawItem :=
  {| raw_title := Some "Ether climbs";
     raw_description := Some "<a>Ether climbs</a> Outlet";
     raw_pubDate := Some "Tue, 03 Nov 2026 09:00:00 GMT" |}.

(** An item whose description has no markup. *)
Definition plain_item : RawItem :=
  {| raw_title := Some "Ether climbs";
     raw_description := Some "Plain text";
     raw_pubDate := None |}.

(** The double quote, as a text of one character. *)
Definition dquote : string := String "034" "".

(** [Some summary <a href="http://x">link</a> — Outlet Name] *)
Definition scenario_description : string :=
  "Some summary <a href=" +:+ dquote +:+ "http://x" +:+ dquote
  +:+ ">link</a> — Outlet Name".

(** [has c s]: the character [c] occurs in [s]. *)
Fixpoint has (c : ascii) (s : string) : bool :=
  match s with
  | EmptyString => false
  | String a r => Ascii.eqb a c || has c r
  end.

(** The characters of a decimal numeral. *)
Definition int_chars : string := "-0123456789".

(** What [", ".join] can be undone on: non-empty pieces without a comma. *)
Definition piece (x : string) : Prop := x ≠ "" ∧ has "," x = false.

(** Keyword arguments whose names are identifiers. *)
Definition named (kwargs : list (string * Z)) : Prop :=
  Forall (fun kv => is_identifier kv.1 = true) kwargs.

(** The reading of C6: two calls that differ in the function or in the
    arguments never get the same key. *)
Definition keys_never_collide : Prop :=
  ∀ f1 a1 k1 f2 a2 k2,
    f1 ≠ f2 ∨ a1 ≠ a2 ∨ k1 ≠ k2 →
    cache_key f1 a1 k1 ≠ cache_key f2 a2 k2.

(** The two functions of the repository named [fetch_news]. *)
Definition fetch_news_api : pyfunc :=
  {| fn_module := "crypto_news"; fn_name := "fetch_news" |}.

Definition fetch_news_dashboard : pyfunc :=
  {| fn_module := "crypto_news_app"; fn_name := "fetch_news" |}.

(** The reading of C7: the outcomes the claim counts as errors, a failed
    request, a status outside 200..299 and a failed parse. *)
Definition claimed_failure (o : net_outcome) : Prop :=
  match o with
  | NetFailure _ => True
  | Response status_code content =>
      ¬ (200 ≤ status_code < 300)%Z ∨ ∃ msg, content = ParseFailure msg
  end.

(** On each of them [fetch_news] logs and returns the empty list. *)
Definition failures_return_nothing
    (find_a : string → option (gmap string string)) : Prop :=
  ∀ o, claimed_failure o →
       ∃ line, fetch_news find_a o = (Ret [], [line]).

(** A response that is a redirect left unfollowed, with a feed of one
    item as its body. *)
Definition redirect_outcome : net_outcome :=
  Response 301 (Parsed [plain_item]).

(** The call returns. *)
Definition returns {A : Type} (r : result A) : Prop := ∃ a, r = Ret a.

(** The HTML library raises on nothing it is given for the description
    [d]. *)
Definition parses_description
    (find_a : string → result (option (gmap string string)))
    (get_text : string → result string) (d : string) : Prop :=
  returns (find_a d)
  ∧ (PyText.contains anchor_close d = true →
     returns
       (get_text (PyText.last_piece (PyText.split_sep anchor_close d)))).

(** A stand-in for the HTML library of the dashboard that never raises. *)
Definition plain_find_a (html : string)
  : result (option (gmap string string)) :=
  Ret (SimpleHtml.find_a html).

Definition plain_get_text (html : string) : result string :=
  Ret (PyText.sub_tags 0 html).

(** The fetch of a statement's input would come back empty. *)
Definition fetches_nothing (find_a : string → option (gmap string string))
    (i : input) : Prop :=
  (fetch_news find_a (in_net i)).1 = Ret [].

(** The thread is between cycles or testing an empty fetch, and the dict is
    [c]. *)
Definition quiet_on (c : Cache) (s : refresher) : Prop :=
  shared s = c ∧ (at_ s = AtFetch ∨ at_ s = AtTest [] ∨ at_ s = AtSleep).

(** The thread never stands before line 112 with an empty list. *)
Definition assigns_items (s : refresher) : Prop :=
  match at_ s with
  | AtSetNews news_items => news_items ≠ []
  | _ => True
  end.

(** The snapshot has items exactly when it has a time of update. *)
Definition dated (c : Cache) : Prop :=
  news c = [] ↔ last_update c = None.

(** [dated] along the loop: between lines 112 and 113 the items are there
    and the time may not be. *)
Definition dated_at (s : refresher) : Prop :=
  assigns_items s
  ∧ match at_ s with
    | AtSetTime => news (shared s) ≠ []
    | _ => dated (shared s)
    end.

(** No tag is left: no [<] has a [>] after it. *)
Fixpoint tagless (s : string) : bool :=
  match s with
  | EmptyString => true
  | String c r =>
      (if Ascii.eqb c "<" then negb (has ">" r) else true) && tagless r
  end.

(** No white-space character starts at any byte of [w] when [tail] comes
    after it. *)
Fixpoint tight_before (tail w : string) : Prop :=
  match w with
  | EmptyString => True
  | String c r => PyText.space_len (w +:+ tail) = 0 ∧ tight_before tail r
  end.

(** What [split] returns: texts that are not empty and hold no white
    space, also when a blank follows. *)
Definition solid (w : string) : Prop := w ≠ "" ∧ tight_before " " w.

(** What may follow a word in a joined text: nothing, or a blank. *)
Definition blank_led (tail : string) : Prop :=
  tail = "" ∨ ∃ x, tail = String " " x.

(** The separator matches at no byte of [w] when [tail] comes after it. *)
Fixpoint unmatched_before (sep tail w : string) : Prop :=
  match w with
  | EmptyString => True
  | String c r =>
      String.prefix sep (w +:+ tail) = false ∧ unmatched_before sep tail r
  end.

(** An item without a description element. *)
Definition bare_item : RawItem :=
  {| raw_title := Some "Ether climbs"; raw_description := None;
     raw_pubDate := None |}.

(** An item whose description holds two anchors and a trailing outlet. *)
Definition two_anchor_item : RawItem :=
  {| raw_title := Some "Ether climbs";
     raw_description :=
       Some ("<a href='http://a'>one</a> and "
             +:+ "<a href='http://b'>two</a>  Outlet ");
     raw_pubDate := None |}.

(** The key of [GET /news/latest/<count>]. *)
Definition latest_key (count : N) : string :=
  cache_key get_latest_news_fn [] [("count", Z.of_N count)].

(** The key of [GET /news]. *)
Definition news_key : string := cache_key get_news_fn [] [].

(** * Properties *)

(** ** Text *)

Module TextFacts.

Import PyText.

Lemma app_nil_l (s : string) : "" +:+ s = s.
Proof. reflexivity. Qed.

Lemma app_cons (a : ascii) (s t : string) :
  String a s +:+ t = String a (s +:+ t).
Proof. reflexivity. Qed.

Lemma app_assoc (s1 s2 s3 : string) :
  (s1 +:+ s2) +:+ s3 = s1 +:+ (s2 +:+ s3).
Proof.
  induction s1 as [| a s1 IH]; [done |].
  rewrite !app_cons. by rewrite IH.
Qed.

Lemma app_nil_r (s : string) : s +:+ "" = s.
Proof.
  induction s as [| a s IH]; [done |]. by rewrite app_cons, IH.
Qed.

Lemma snoc_app (s : string) (c : ascii) (r : string) :
  snoc s c +:+ r = s +:+ String c r.
Proof. unfold snoc. by rewrite app_assoc. Qed.

(** Where the separator does not occur, [split] returns the text whole. *)
Lemma split_on_absent (sep piece s : string) :
  contains sep s = false → split_on sep 0 piece s = [piece +:+ s].
Proof.
  revert piece. induction s as [| c r IH]; intros piece Habs.
  - simpl. by rewrite app_nil_r.
  - change (contains sep (String c r))
      with (String.prefix sep (String c r) || contains sep r) in Habs.
    apply orb_false_elim in Habs as [Hpre Habs].
    change (split_on sep 0 piece (String c r))
      with (if String.prefix sep (String c r)
            then piece :: split_on sep (String.length sep - 1) "" r
            else split_on sep 0 (snoc piece c) r).
    rewrite Hpre, IH by done. by rewrite snoc_app.
Qed.

End TextFacts.

(** ** The refresh loop *)

Section RefreshFacts.

Variable find_a : string -> option (gmap string string).

Lemma idle_on_step c s s' :
  idle_on c s → cycle_step find_a s s' → idle_on c s'.
Proof.
  intros [Hc Hat] [Hawake [i ->]].
  destruct Hat as [Hat | Hat]; [| contradiction].
  unfold exec, idle_on. rewrite Hat. simpl. auto.
Qed.

Lemma idle_on_rtc c s s' :
  idle_on c s → rtc (cycle_step find_a) s s' → idle_on c s'.
Proof.
  intros Hs Hrtc. induction Hrtc as [| s1 s2 s3 Hstep _ IH]; [assumption |].
  apply IH. eapply idle_on_step; eassumption.
Qed.

Lemma exec_fetch i c lg items :
  (fetch_news find_a (in_net i)).1 = Ret items →
  ∃ lines, exec find_a i (start c lg)
           = {| at_ := AtTest items; shared := c; logged := lg ++ lines |}.
Proof.
  intros Hf. unfold exec, start. simpl.
  destruct (fetch_news find_a (in_net i)) as [r lines]. simpl in Hf. subst r.
  by exists lines.
Qed.

Lemma cycle_point_step c items s s' :
  items ≠ [] → cycle_point c items s → cycle_step find_a s s' →
  cycle_point c items s'.
Proof.
  intros Hne Hp [Hawake [i ->]]. unfold cycle_point, exec in *.
  destruct (at_ s) as [| l | l | | |] eqn:Hat; simpl; try done.
  - destruct Hp as [-> Hc]. destruct items; [done |]. by simpl.
  - destruct Hp as [-> Hc]. by rewrite Hc.
  - exists (in_now i). by rewrite Hp.
Qed.

Lemma cycle_point_rtc c items s s' :
  items ≠ [] → cycle_point c items s → rtc (cycle_step find_a) s s' →
  cycle_point c items s'.
Proof.
  intros Hne Hs Hrtc. induction Hrtc as [| s1 s2 s3 Hstep _ IH]; [assumption |].
  apply IH. eapply cycle_point_step; eassumption.
Qed.

End RefreshFacts.

(** C1.  In a refresh cycle whose call of [fetch_news] returns the empty
    list, whatever the outcome of the request behind it, the shared dict is
    at every point of the cycle the one the cycle started with: the items
    and the time of the last update are the prior ones.  The cycle reaches
    its sleep after the fetch and the test. *)
Theorem empty_fetch_keeps_snapshot
    (find_a : string → option (gmap string string))
    (i : input) (c : Cache) (lg : list string) :
  (fetch_news find_a (in_net i)).1 = Ret [] →
  (∀ s, in_cycle find_a i c lg s →
        shared s = c ∧ news (shared s) = news c
        ∧ last_update (shared s) = last_update c)
  ∧ (∀ j, at_ (run find_a [i; j] (start c lg)) = AtSleep
          ∧ shared (run find_a [i; j] (start c lg)) = c).
Proof.
  intros Hf. destruct (exec_fetch find_a i c lg [] Hf) as [lines Hexec].
  split.
  - intros s Hs. unfold in_cycle in Hs. rewrite Hexec in Hs.
    apply (idle_on_rtc find_a c) in Hs; [| split; simpl; auto].
    destruct Hs as [-> _]. auto.
  - intros j. unfold run. simpl. rewrite Hexec. unfold exec. simpl. auto.
Qed.

Lemma empty_fetch_keeps_snapshot_witness :
  shared (exec SimpleHtml.find_a failed_input
            (exec SimpleHtml.find_a failed_input (start stale_cache [])))
  = stale_cache.
Proof.
  refine (proj1 (proj1 (empty_fetch_keeps_snapshot SimpleHtml.find_a
                          failed_input stale_cache [] _) _ _)).
  - reflexivity.
  - eapply rtc_l; [| apply rtc_refl].
    split; [discriminate | exists failed_input; reflexivity].
Defined.

(** C9, counterexample.  From the empty snapshot of a starting process, a
    fetch brings one item; after the assignment of line 112 and before that
    of line 113 the dict holds the new item and no time of update, which is
    neither the old snapshot nor a complete new one. *)
Lemma torn_snapshot_observable :
  ¬ (∀ s, in_cycle SimpleHtml.find_a fresh_input initial_cache [] s →
          whole_snapshot initial_cache fresh_items s).
Proof.
  intros Hall.
  assert (Hin : in_cycle SimpleHtml.find_a fresh_input initial_cache []
                  torn_state).
  { unfold in_cycle.
    eapply rtc_l; [split; [| exists fresh_input; reflexivity] |].
    - vm_compute. discriminate.
    - eapply rtc_l; [split; [| exists fresh_input; reflexivity] |].
      + vm_compute. discriminate.
      + apply rtc_refl. }
  destruct (Hall _ Hin) as [Hold | [t Hnew]].
  - vm_compute in Hold. discriminate.
  - vm_compute in Hnew. discriminate.
Qed.

(** C9, as the code has it.  In a cycle whose fetch brings a non-empty
    list, the items are written whole by one assignment and the time of
    update by the next, so the dict goes through three states: the old
    items with the old time before line 112, the new items with the old
    time between lines 112 and 113, the new items with the time read at
    line 113 after it; it never holds the old items with a new time, nor
    a list that is part old and part new, and every such cycle passes
    through the state in between.  A handler pairs what its own reads
    meet: [get_news], its reads of lines 143 to 150 made before line 112
    and those of line 151 after line 113, sends the old items and the old
    time in the body under the new time in [Last-Modified]. *)
Theorem snapshot_written_in_two_steps
    (find_a : string → option (gmap string string))
    (strftime : Z → string → string)
    (i : input) (c : Cache) (lg : list string) (items : list NewsItem)
    (s : refresher) :
  (fetch_news find_a (in_net i)).1 = Ret items →
  items ≠ [] →
  (in_cycle find_a i c lg s →
   match at_ s with
   | AtTest _ | AtSetNews _ => view s = (news c, last_update c)
   | AtSetTime => view s = (items, last_update c)
   | AtLog | AtSleep => ∃ t, view s = (items, Some t)
   | AtFetch => False
   end)
  ∧ (∀ j1 j2, view (run find_a [i; j1; j2] (start c lg))
              = (items, last_update c))
  ∧ (∀ j1 j2 j3 j4,
       at_ (run find_a [i; j1; j2; j3; j4] (start c lg)) = AtSleep
       ∧ view (run find_a [i; j1; j2; j3; j4] (start c lg))
         = (items, Some (in_now j3)))
  ∧ (∀ j1 j2 j3,
       get_news_reading strftime
         {| rd_143_test := shared (run find_a [i; j1] (start c lg));
            rd_143 := shared (run find_a [i; j1] (start c lg));
            rd_144 := shared (run find_a [i; j1] (start c lg));
            rd_145 := shared (run find_a [i; j1] (start c lg));
            rd_150 := shared (run find_a [i; j1] (start c lg));
            rd_151_test :=
              shared (run find_a [i; j1; j2; j3] (start c lg));
            rd_151 := shared (run find_a [i; j1; j2; j3] (start c lg)) |}
       = Some {| body_status := "success";
                 body_last_update :=
                   formatted strftime "%Y-%m-%d %H:%M:%S" (last_update c);
                 body_count := len (news c);
                 body_news := news c;
                 headers :=
                   [("Cache-Control", "public, max-age=300");
                    ("X-Cache-Hit",
                     match news c with [] => "false" | _ => "true" end);
                    ("Last-Modified",
                     strftime (in_now j3)
                       "%a, %d %b %Y %H:%M:%S GMT")] |}).
Proof.
  intros Hf Hne. destruct (exec_fetch find_a i c lg items Hf) as [lines Hexec].
  split; [| split; [| split]].
  - intros Hs. unfold in_cycle in Hs. rewrite Hexec in Hs.
    apply (cycle_point_rtc find_a c items) in Hs; [| assumption | by simpl].
    unfold cycle_point in Hs. unfold view.
    destruct (at_ s); try done.
    + destruct Hs as [_ ->]. done.
    + destruct Hs as [_ ->]. done.
    + by rewrite Hs.
    + destruct Hs as [t ->]. by exists t.
    + destruct Hs as [t ->]. by exists t.
  - intros j1 j2. unfold run. simpl. rewrite Hexec.
    destruct items; [done |]. reflexivity.
  - intros j1 j2 j3 j4. unfold run. simpl. rewrite Hexec.
    destruct items; [done |]. split; reflexivity.
  - intros j1 j2 j3. unfold run. simpl. rewrite Hexec.
    destruct items; [done |]. unfold get_news_reading, strftime_if.
    simpl. by destruct (last_update c).
Qed.

Lemma snapshot_written_in_two_steps_witness :
  view torn_state = (fresh_items, None).
Proof.
  refine (proj1 (snapshot_written_in_two_steps SimpleHtml.find_a no_format
                   fresh_input initial_cache [] fresh_items torn_state
                   _ _) _).
  - reflexivity.
  - discriminate.
  - unfold in_cycle.
    eapply rtc_l; [split; [| exists fresh_input; reflexivity] |].
    + vm_compute. discriminate.
    + eapply rtc_l; [split; [| exists fresh_input; reflexivity] |].
      * vm_compute. discriminate.
      * apply rtc_refl.
Defined.

(** ** The keyed TTL cache *)

Section NewsCacheFacts.

Context {K : Type} `{Countable K} {V : Type}.

Lemma cache_get_set (store : gmap K (entry V)) (k : K) (v : option V)
    (t now now' : Z) :
  cache_get now' k (cache_set now k v t store)
  = if (now' <? now + timedelta_seconds t)%Z then v else None.
Proof.
  unfold cache_get, cache_set. by rewrite lookup_insert_eq.
Qed.

(** A key that was not set reads as before. *)
Lemma cache_get_set_other (store : gmap K (entry V)) (k k' : K)
    (v : option V) (t now now' : Z) :
  k ≠ k' →
  cache_get now' k' (cache_set now k v t store) = cache_get now' k' store.
Proof.
  intros Hne. unfold cache_get, cache_set. by rewrite lookup_insert_ne.
Qed.

End NewsCacheFacts.

(** C2.  After [set(k, v, t)] at the time [now], [get(k)] at the time
    [now'] returns [v] when the time elapsed, [now' - now], is less than
    [t] seconds, and [None] when it is [t] seconds or more. *)
Theorem get_after_set {K : Type} `{Countable K} {V : Type}
    (store : gmap K (entry V)) (k : K) (v : option V) (t now now' : Z) :
  ((now' - now < timedelta_seconds t)%Z →
   cache_get now' k (cache_set now k v t store) = v)
  ∧ ((timedelta_seconds t ≤ now' - now)%Z →
     cache_get now' k (cache_set now k v t store) = None).
Proof.
  rewrite cache_get_set. split; intros Hel.
  - destruct (Z.ltb_spec now' (now + timedelta_seconds t)); [done | lia].
  - destruct (Z.ltb_spec now' (now + timedelta_seconds t)); [lia | done].
Qed.

Lemma get_after_set_witness :
  cache_get 299999999 "k" (cache_set 0 "k" (Some 7%nat) 300 ∅) = Some 7%nat
  ∧ cache_get 300000000 "k" (cache_set 0 "k" (Some 7%nat) 300 ∅) = None.
Proof.
  split.
  - apply (proj1 (get_after_set ∅ "k" (Some 7%nat) 300 0 299999999)).
    reflexivity.
  - apply (proj2 (get_after_set ∅ "k" (Some 7%nat) 300 0 300000000)).
    unfold timedelta_seconds. lia.
Defined.

(** ** The handlers *)

Lemma len_take {A : Type} (n : nat) (l : list A) :
  len (take n l) = Z.min (Z.of_nat n) (len l).
Proof. unfold len. rewrite length_take. lia. Qed.

Lemma slice_to_all {A : Type} (count : Z) (l : list A) :
  (len l ≤ count)%Z → slice_to count l = l.
Proof.
  unfold slice_to, len. intros Hle.
  destruct (Z.ltb_spec count 0); [lia |].
  apply take_ge. lia.
Qed.

Section HandlerFacts.

Variable strftime : Z → string → string.

Lemma get_news_well_counted (c : Cache) : well_counted (get_news strftime c).
Proof. reflexivity. Qed.

Lemma get_latest_news_well_counted (c : Cache) (count : N) :
  well_counted (get_latest_news strftime c (Z.of_N count)).
Proof.
  unfold well_counted, get_latest_news, slice_to. simpl.
  destruct (Z.ltb_spec (Z.of_N count) 0); [lia |].
  rewrite len_take. lia.
Qed.

(** The function itself, given a negative count, would report that count
    and carry all items but the last ones; the route never passes one. *)
Lemma get_latest_news_negative (c : Cache) :
  body_count (get_latest_news strftime c (-1)) = (-1)%Z
  ∧ body_news (get_latest_news strftime c (-1))
    = take (length (news c) - 1) (news c).
Proof.
  split.
  - simpl. unfold len. lia.
  - simpl. unfold slice_to. simpl. f_equal. lia.
Qed.


Lemma memo_ok_empty : memo_ok ∅.
Proof. intros k e r Hk. by rewrite lookup_empty in Hk. Qed.

Lemma memo_ok_get (store : gmap string (entry response)) now k r :
  memo_ok store → cache_get now k store = Some r → well_counted r.
Proof.
  unfold cache_get. intros Hok Hget.
  destruct (store !! k) as [e |] eqn:Hk; [| done].
  destruct (now <? expiry e)%Z; [| done].
  by apply (Hok k e r).
Qed.

Lemma memo_ok_set (store : gmap string (entry response)) now k r ttl :
  memo_ok store → well_counted r →
  memo_ok (cache_set now k (Some r) ttl store).
Proof.
  intros Hok Hr k' e r'. unfold cache_set.
  destruct (decide (k = k')) as [<- | Hne].
  - rewrite lookup_insert_eq. intros [= <-]. simpl. by intros [= <-].
  - rewrite lookup_insert_ne by done. apply Hok.
Qed.

Lemma wrapper_well_counted ttl f args kwargs (fresh : response) t_get t_set
    (store : gmap string (entry response)) :
  memo_ok store → well_counted fresh →
  (∃ r, (wrapper ttl f args kwargs (fun _ => Some fresh) t_get t_set store).1
        = Some r ∧ well_counted r)
  ∧ memo_ok
      (wrapper ttl f args kwargs (fun _ => Some fresh) t_get t_set store).2.
Proof.
  intros Hok Hfresh. unfold wrapper.
  destruct (cache_get t_get (cache_key f args kwargs) store) as [r |] eqn:Hget;
    simpl.
  - split; [| done]. exists r. split; [done |]. by eapply memo_ok_get.
  - split; [by exists fresh |]. by apply memo_ok_set.
Qed.

Lemma serve_well_counted (ev : event) (a : app) :
  memo_ok (news_cache a) →
  (∀ r, (serve strftime ev a).1 = Some r → well_counted r)
  ∧ memo_ok (news_cache (serve strftime ev a).2).
Proof.
  intros Hok. destruct ev as [c | t_get t_set | count t_get t_set]; simpl.
  - split; [done | done].
  - unfold news_view.
    destruct (wrapper_well_counted 300 get_news_fn [] []
                (get_news strftime (snapshot a)) t_get t_set (news_cache a)
                Hok (get_news_well_counted _)) as [[r [Hr Hwc]] Hok'].
    destruct (wrapper _ _ _ _ _ _ _ _) as [r' store']. simpl in *.
    split; [| done]. intros r0 Hr0. congruence.
  - unfold latest_view.
    destruct (wrapper_well_counted 300 get_latest_news_fn []
                [("count", Z.of_N count)]
                (get_latest_news strftime (snapshot a) (Z.of_N count))
                t_get t_set (news_cache a)
                Hok (get_latest_news_well_counted _ _)) as [[r [Hr Hwc]] Hok'].
    destruct (wrapper _ _ _ _ _ _ _ _) as [r' store']. simpl in *.
    split; [| done]. intros r0 Hr0. congruence.
Qed.

Lemma history_well_counted (evs : list event) (a : app) :
  memo_ok (news_cache a) →
  Forall well_counted (history strftime evs a).1.
Proof.
  revert a. induction evs as [| ev evs IH]; intros a Hok; simpl.
  - constructor.
  - destruct (serve_well_counted ev a Hok) as [Hr Hok'].
    destruct (serve strftime ev a) as [r a']. simpl in *.
    specialize (IH a' Hok').
    destruct (history strftime evs a') as [rs a'']. simpl in *.
    destruct r as [r |]; [| done].
    constructor; [by apply Hr | done].
Qed.

End HandlerFacts.

(** C10.  Along any history of the process (the refresh thread writing the
    snapshot between requests, [/news] and [/news/latest/<count>] being
    served, from the memo or afresh), every response sent reports as
    [count] the length of the [news] list it carries.  Each handler reads
    one snapshot while it builds its response. *)
Theorem count_is_length_of_news (strftime : Z → string → string)
    (evs : list event) :
  Forall well_counted (history strftime evs initial_app).1.
Proof.
  apply history_well_counted. apply memo_ok_empty.
Qed.




(** ** The fetcher *)

Section FetcherFacts.

Variable find_a : string → option (gmap string string).

Lemma fetch_body_net_failure msg :
  fetch_body find_a (NetFailure msg) = Raise (RequestException msg).
Proof. reflexivity. Qed.

Lemma fetch_body_refused status content :
  (400 ≤ status < 600)%Z →
  fetch_body find_a (Response status content) = Raise (HTTPError status).
Proof.
  intros [Hlo Hhi]. unfold fetch_body, raise_for_status. simpl.
  destruct (Z.leb_spec 400 status); [| lia].
  destruct (Z.ltb_spec status 600); [| lia].
  reflexivity.
Qed.

Lemma fetch_body_parse_failure status msg :
  ¬ (400 ≤ status < 600)%Z →
  fetch_body find_a (Response status (ParseFailure msg))
  = Raise (ParserError msg).
Proof.
  intros Hok. unfold fetch_body, raise_for_status. simpl.
  destruct (Z.leb_spec 400 status); destruct (Z.ltb_spec status 600);
    simpl; try reflexivity. lia.
Qed.

Lemma fetch_news_parsed status items :
  ¬ (400 ≤ status < 600)%Z →
  fetch_news find_a (Response status (Parsed items))
  = (Ret (map (normalize find_a) items), []).
Proof.
  intros Hst. unfold fetch_news, fetch_body, raise_for_status. simpl.
  destruct (Z.leb_spec 400 status); destruct (Z.ltb_spec status 600);
    simpl; try reflexivity. lia.
Qed.

Lemma fetch_news_returns (o : net_outcome) :
  ∃ news_items, (fetch_news find_a o).1 = Ret news_items.
Proof.
  unfold fetch_news. destruct (fetch_body find_a o) as [items | e]; eauto.
Qed.

End FetcherFacts.

(** C7, counterexample.  A status outside 200..299 is not always an error
    to [fetch_news]: [raise_for_status] lets a 301 pass, the body is
    parsed, and the call returns the item of the feed and logs nothing. *)
Lemma redirect_status_returns_items :
  ¬ failures_return_nothing SimpleHtml.find_a.
Proof.
  intros Hall. destruct (Hall redirect_outcome) as [line Hline].
  - left. simpl. lia.
  - vm_compute in Hline. discriminate.
Qed.

(** C7, as the code has it.  Whatever the request and the parse come to,
    [fetch_news] returns a list and raises nothing.  A failed request, a
    status from 400 to 599 and a failed parse each raise inside the [try]
    block; whenever the block raises, [fetch_news] sends one line to
    [logger.error] and returns the empty list, which is also what it
    returns for a feed without items.  A response with any other status
    whose body parses is read like a 200: its items are returned and
    nothing is logged. *)
Theorem fetch_news_never_raises
    (find_a : string → option (gmap string string)) :
  (∀ o, ∃ news_items, (fetch_news find_a o).1 = Ret news_items)
  ∧ (∀ o e, fetch_body find_a o = Raise e →
            fetch_news find_a o
            = (Ret [], ["Error fetching news: " +:+ str_exn e])
            ∧ (fetch_news find_a o).1
              = (fetch_news find_a (Response 200 (Parsed []))).1)
  ∧ (∀ msg, ∃ e, fetch_body find_a (NetFailure msg) = Raise e)
  ∧ (∀ status content, (400 ≤ status < 600)%Z →
       ∃ e, fetch_body find_a (Response status content) = Raise e)
  ∧ (∀ status msg,
       ∃ e, fetch_body find_a (Response status (ParseFailure msg)) = Raise e)
  ∧ (∀ status items, ¬ (400 ≤ status < 600)%Z →
       fetch_news find_a (Response status (Parsed items))
       = (Ret (map (normalize find_a) items), [])).
Proof.
  split; [apply fetch_news_returns |].
  split; [| split; [| split; [| split;
    [| intros status items; apply fetch_news_parsed]]]].
  - intros o e He. unfold fetch_news. rewrite He. split; reflexivity.
  - intros msg. eexists. apply fetch_body_net_failure.
  - intros status content Hst. eexists. by apply fetch_body_refused.
  - intros status msg.
    destruct (decide (400 ≤ status < 600)%Z) as [Hst | Hst].
    + eexists. by apply fetch_body_refused.
    + eexists. by apply fetch_body_parse_failure.
Qed.

Lemma fetch_news_never_raises_witness :
  fetch_news SimpleHtml.find_a (Response 503 (Parsed [fresh_raw]))
  = (Ret [], ["Error fetching news: 503 Error"]).
Proof.
  apply (proj1 (proj1 (proj2 (fetch_news_never_raises SimpleHtml.find_a))
                  (Response 503 (Parsed [fresh_raw])) (HTTPError 503)
                  eq_refl)).
Defined.

(** ** The normalizer *)

Section NormalizerFacts.

Variable find_a : string → option (gmap string string).

(** The four fields that do not come from the HTML library are strings. *)
Lemma normalize_text_fields (item : RawItem) :
  is_str (title (normalize find_a item)) = true
  ∧ is_str (published_date (normalize find_a item)) = true
  ∧ is_str (summary (normalize find_a item)) = true
  ∧ is_str (source (normalize find_a item)) = true.
Proof. repeat split. Qed.

(** The link is a string when the description has no anchor or its first
    anchor has an [href]. *)
Lemma extract_link_str (html_text : string) :
  (∀ attrs, find_a html_text = Some attrs → is_Some (attrs !! "href")) →
  is_str (extract_link find_a html_text) = true.
Proof.
  intros Hhref. unfold extract_link.
  destruct (find_a html_text) as [attrs |]; [| reflexivity].
  destruct (Hhref attrs eq_refl) as [href ->]. reflexivity.
Qed.

End NormalizerFacts.

(** C3.  The [link] of the record is [None], not a string, when the first
    anchor of the description carries no [href]: [link.get('href')] has no
    default.  The other four fields are always strings
    ([normalize_text_fields]). *)
Theorem link_none_without_href
    (find_a : string → option (gmap string string))
    (item : RawItem) (attrs : gmap string string) :
  find_a (text_or_empty (raw_description item)) = Some attrs →
  attrs !! "href" = None →
  link (normalize find_a item) = PyNone
  ∧ is_str (link (normalize find_a item)) = false.
Proof.
  intros Hfind Hhref. unfold normalize, extract_link. simpl.
  rewrite Hfind, Hhref. split; reflexivity.
Qed.

Lemma link_none_without_href_witness :
  link (normalize SimpleHtml.find_a bare_anchor_item) = PyNone
  ∧ is_str (link (normalize SimpleHtml.find_a bare_anchor_item)) = false.
Proof.
  apply (link_none_without_href SimpleHtml.find_a bare_anchor_item ∅).
  - reflexivity.
  - reflexivity.
Defined.

(** C4.  For a description that is not empty and in which no closing
    anchor tag occurs, [split] returns the description as its only piece
    and the source is the whole description, cleaned and trimmed: the
    source of the description [Plain text] is [Plain text], not the empty
    string. *)
Theorem source_without_anchor
    (find_a : string → option (gmap string string))
    (item : RawItem) (d : string) :
  raw_description item = Some d →
  d ≠ "" →
  PyText.contains anchor_close d = false →
  source (normalize find_a item) = PyStr (PyText.strip (clean_html d)).
Proof.
  intros Hd Hne Habs. unfold normalize. rewrite Hd. simpl.
  unfold source_of, PyText.split_sep.
  rewrite TextFacts.split_on_absent by done.
  destruct d; [done |]. reflexivity.
Qed.

Lemma source_without_anchor_witness :
  source (normalize SimpleHtml.find_a plain_item) = PyStr "Plain text".
Proof.
  apply (source_without_anchor SimpleHtml.find_a plain_item "Plain text").
  - reflexivity.
  - discriminate.
  - reflexivity.
Defined.

(** C8.  For the description of the scenario, whose first anchor the HTML
    library reports with the [href] [http://x], the record has the summary
    [Some summary link — Outlet Name], the link [http://x] and the source
    [— Outlet Name]. *)
Theorem scenario_record
    (find_a : string → option (gmap string string))
    (attrs : gmap string string) (t p : option string) :
  find_a scenario_description = Some attrs →
  attrs !! "href" = Some "http://x" →
  normalize find_a
    {| raw_title := t; raw_description := Some scenario_description;
       raw_pubDate := p |}
  = {| title := PyStr (text_or_empty t);
       link := PyStr "http://x";
       published_date := PyStr (text_or_empty p);
       summary := PyStr "Some summary link — Outlet Name";
       source := PyStr "— Outlet Name" |}.
Proof.
  intros Hfind Hhref. unfold normalize, extract_link. simpl raw_description.
  simpl text_or_empty at 1 2 3. rewrite Hfind, Hhref.
  f_equal.
Qed.

Lemma scenario_record_witness :
  normalize SimpleHtml.find_a
    {| raw_title := Some "T"; raw_description := Some scenario_description;
       raw_pubDate := None |}
  = {| title := PyStr "T";
       link := PyStr "http://x";
       published_date := PyStr "";
       summary := PyStr "Some summary link — Outlet Name";
       source := PyStr "— Outlet Name" |}.
Proof.
  apply (scenario_record SimpleHtml.find_a {["href" := "http://x"]}
           (Some "T") None).
  - vm_compute. reflexivity.
  - reflexivity.
Defined.

(** ** The memoization key *)

Module KeyFacts.

Import PyText TextFacts.

Lemma has_app c s1 s2 : has c (s1 +:+ s2) = has c s1 || has c s2.
Proof.
  induction s1 as [| a s1 IH]; [done |].
  rewrite app_cons. simpl. rewrite IH. by rewrite orb_assoc.
Qed.

(** A text is cut in one way only at the first occurrence of [c]. *)
Lemma split_at_char c s1 t1 s2 t2 :
  has c s1 = false → has c s2 = false →
  s1 +:+ String c t1 = s2 +:+ String c t2 → s1 = s2 ∧ t1 = t2.
Proof.
  revert s2. induction s1 as [| a s1 IH]; intros [| b s2];
    rewrite ?app_cons, ?app_nil_l; simpl.
  - intros _ _ [= ->]. done.
  - intros _ Hb [= <- _]. rewrite Ascii.eqb_refl in Hb. done.
  - intros Ha _ [= -> _]. rewrite Ascii.eqb_refl in Ha. done.
  - intros Ha Hb [= -> Heq].
    apply orb_false_elim in Ha as [_ Ha]. apply orb_false_elim in Hb as [_ Hb].
    destruct (IH s2 Ha Hb Heq) as [-> ->]. done.
Qed.

Lemma no_char_no_cut c s s' t :
  has c s = false → s = s' +:+ String c t → False.
Proof.
  intros Hs ->. rewrite has_app in Hs. simpl in Hs.
  rewrite Ascii.eqb_refl in Hs. by destruct (has c s').
Qed.

(** *** Decimal numerals *)

Lemma has_cons c a r : has c (String a r) = Ascii.eqb a c || has c r.
Proof. reflexivity. Qed.

Lemma has_uint c (d : Decimal.uint) :
  has c int_chars = false → has c (NilEmpty.string_of_uint d) = false.
Proof.
  intros Hc. unfold int_chars in Hc. rewrite !has_cons in Hc.
  repeat (apply orb_false_elim in Hc as [? Hc]).
  induction d; [done | ..];
    simpl NilEmpty.string_of_uint; rewrite has_cons, IHd;
    by apply orb_false_intro.
Qed.

Lemma has_nz_uint c (d : Decimal.uint) :
  has c int_chars = false → has c (NilZero.string_of_uint d) = false.
Proof.
  intros Hc. destruct d; try by apply (has_uint c _ Hc).
  apply (has_uint c (Decimal.D0 Decimal.Nil) Hc).
Qed.

Lemma has_str_int c z : has c int_chars = false → has c (str_int z) = false.
Proof.
  intros Hc. unfold str_int, NilZero.string_of_int.
  destruct (Z.to_int z) as [d | d]; [by apply has_nz_uint |].
  rewrite has_cons, has_nz_uint by done.
  unfold int_chars in Hc. rewrite has_cons in Hc.
  apply orb_false_elim in Hc as [-> _]. done.
Qed.

Lemma to_int_proper z :
  Z.to_int z ≠ Decimal.Pos Decimal.Nil
  ∧ Z.to_int z ≠ Decimal.Neg Decimal.Nil.
Proof.
  destruct z as [| p | p]; simpl; split; try discriminate;
    intros [= Hp]; by apply DecimalPos.Unsigned.to_uint_nonnil in Hp.
Qed.

Lemma str_int_parse z :
  NilZero.int_of_string (str_int z) = Some (Z.to_int z).
Proof.
  destruct (to_int_proper z). by apply NilZero.isi.
Qed.

Lemma str_int_inj a b : str_int a = str_int b → a = b.
Proof.
  intros Heq. pose proof (str_int_parse a) as Ha.
  rewrite Heq, str_int_parse in Ha.
  injection Ha as Ha. rewrite <- (DecimalZ.of_to a), <- (DecimalZ.of_to b).
  by rewrite Ha.
Qed.

Lemma str_int_nonempty z : str_int z ≠ "".
Proof.
  intros Heq. pose proof (str_int_parse z) as Hz. rewrite Heq in Hz. done.
Qed.


(** *** Joined lists *)

Lemma join_cons sep x y r :
  join sep (x :: y :: r) = x +:+ sep +:+ join sep (y :: r).
Proof. reflexivity. Qed.

Lemma has_join c sep l :
  has c sep = false → Forall (fun x => has c x = false) l →
  has c (join sep l) = false.
Proof.
  intros Hsep Hl. induction Hl as [| x r Hx Hr IH]; [done |].
  destruct r as [| y r]; [done |].
  rewrite join_cons, !has_app, Hx, Hsep, IH. done.
Qed.

Lemma join_piece_nonempty x r : piece x → join ", " (x :: r) ≠ "".
Proof.
  intros [Hx _]. destruct r as [| y r]; [done |].
  rewrite join_cons. destruct x; [done |]. by rewrite app_cons.
Qed.

Lemma join_comma_inj l1 l2 :
  Forall piece l1 → Forall piece l2 →
  join ", " l1 = join ", " l2 → l1 = l2.
Proof.
  intros H1. revert l2.
  induction H1 as [| x1 r1 Hx1 Hr1 IH]; intros l2 H2 Heq.
  - destruct H2 as [| x2 r2 Hx2 _]; [done |].
    symmetry in Heq. by apply join_piece_nonempty in Heq.
  - destruct H2 as [| x2 r2 Hx2 Hr2].
    { by apply join_piece_nonempty in Heq. }
    destruct r1 as [| y1 r1], r2 as [| y2 r2].
    + simpl in Heq. by subst.
    + rewrite join_cons in Heq. simpl in Heq. destruct Hx1 as [_ Hx1].
      exfalso. exact (no_char_no_cut _ _ _ _ Hx1 Heq).
    + rewrite join_cons in Heq. simpl in Heq. destruct Hx2 as [_ Hx2].
      exfalso. symmetry in Heq. exact (no_char_no_cut _ _ _ _ Hx2 Heq).
    + rewrite !join_cons in Heq.
      apply split_at_char in Heq as [-> Heq];
        [| by destruct Hx1 | by destruct Hx2].
      injection Heq as Heq. f_equal. by apply IH.
Qed.

Lemma map_inj_list {A B : Type} (f : A → B) (l1 l2 : list A) :
  (∀ a b, a ∈ l1 → b ∈ l2 → f a = f b → a = b) →
  map f l1 = map f l2 → l1 = l2.
Proof.
  revert l2. induction l1 as [| a l1 IH]; intros [| b l2] Hinj Heq;
    try done.
  injection Heq as Hab Heq. f_equal.
  - apply Hinj; [left | left | done].
  - apply IH; [| done]. intros; apply Hinj; try done; by right.
Qed.

(** *** Tuples of integers *)

Lemma int_piece z : piece (str_int z).
Proof. split; [apply str_int_nonempty | by apply has_str_int]. Qed.

Lemma int_pieces l : Forall piece (map str_int l).
Proof. induction l; constructor; [apply int_piece | done]. Qed.

Lemma tuple_body_inj a1 a2 : tuple_body a1 = tuple_body a2 → a1 = a2.
Proof.
  assert (Hone : ∀ x y r,
             str_int x +:+ "," ≠ join ", " (map str_int (x :: y :: r))
             ∧ ∀ x', str_int x' +:+ ","
                     ≠ join ", " (map str_int (x :: y :: r))).
  { intros x y r. assert (∀ x', str_int x' +:+ ","
                     ≠ join ", " (map str_int (x :: y :: r))); [| done].
    intros x' Heq. simpl map in Heq. rewrite join_cons in Heq.
    apply split_at_char in Heq as [_ Heq]; [done | ..];
      by apply has_str_int. }
  destruct a1 as [| x1 [| y1 r1]], a2 as [| x2 [| y2 r2]];
    unfold tuple_body; intros Heq; try done.
  - destruct (str_int_nonempty x2). by destruct (str_int x2).
  - symmetry in Heq. by apply (join_piece_nonempty _ _ (int_piece x2)) in Heq.
  - destruct (str_int_nonempty x1). by destruct (str_int x1).
  - apply split_at_char in Heq as [Heq _]; try by apply has_str_int.
    by rewrite (str_int_inj _ _ Heq).
  - by apply (proj2 (Hone x2 y2 r2)) in Heq.
  - by apply (join_piece_nonempty _ _ (int_piece x1)) in Heq.
  - symmetry in Heq. by apply (proj2 (Hone x1 y1 r1)) in Heq.
  - apply join_comma_inj in Heq; try apply int_pieces.
    apply map_inj_list in Heq; [done |]. intros; by apply str_int_inj.
Qed.

Lemma has_tuple_body c a :
  has c int_chars = false → has c ", " = false →
  has c (tuple_body a) = false.
Proof.
  intros Hint Hsep. destruct a as [| x [| y r]]; unfold tuple_body.
  - done.
  - rewrite has_app, has_str_int by done. rewrite !has_cons in Hsep.
    apply orb_false_elim in Hsep as [Hcomma _].
    by rewrite has_cons, Hcomma.
  - apply has_join; [done |]. apply Forall_forall. intros s Hs.
    apply list_elem_of_fmap in Hs as [z [-> _]]. by apply has_str_int.
Qed.


(** *** Identifiers *)

Lemma all_chars_has (p : ascii → bool) c s :
  all_chars p s = true → p c = false → has c s = false.
Proof.
  intros Hs Hc. induction s as [| a s IH]; [done |].
  simpl in Hs. apply andb_prop in Hs as [Ha Hs].
  rewrite has_cons, IH by done.
  destruct (Ascii.eqb_spec a c) as [-> |]; [congruence | done].
Qed.

Lemma identifier_has c s :
  is_identifier s = true → ident_char c = false → has c s = false.
Proof.
  intros Hs Hc. destruct s as [| a s]; [done |].
  unfold is_identifier in Hs. apply andb_prop in Hs as [_ Hs].
  by apply (all_chars_has ident_char).
Qed.

(** *** Keyword arguments *)

Lemma str_item_shape kv :
  str_item kv = String "'" (kv.1 +:+ String "'" (": " +:+ str_int kv.2)).
Proof. reflexivity. Qed.

Lemma has_str_item c kv :
  is_identifier kv.1 = true → ident_char c = false →
  has c int_chars = false → has c "': " = false →
  has c (str_item kv) = false.
Proof.
  intros Hk Hid Hint Hsep. rewrite !has_cons in Hsep.
  apply orb_false_elim in Hsep as [Hq Hsep].
  apply orb_false_elim in Hsep as [Hcolon Hsep].
  apply orb_false_elim in Hsep as [Hblank _].
  rewrite str_item_shape, has_cons, has_app, has_cons.
  rewrite (identifier_has c kv.1) by done.
  change (": " +:+ str_int kv.2) with (String ":" (String " " (str_int kv.2))).
  rewrite !has_cons, has_str_int by done.
  by rewrite Hq, Hcolon, Hblank.
Qed.

Lemma item_piece kv : is_identifier kv.1 = true → piece (str_item kv).
Proof.
  intros Hk. split; [by rewrite str_item_shape |].
  by apply has_str_item.
Qed.

Lemma str_item_inj kv1 kv2 :
  is_identifier kv1.1 = true → is_identifier kv2.1 = true →
  str_item kv1 = str_item kv2 → kv1 = kv2.
Proof.
  intros H1 H2 Heq. rewrite !str_item_shape in Heq. injection Heq as Heq.
  apply split_at_char in Heq as [Hk Hv]; try by apply identifier_has.
  injection Hv as Hv. apply str_int_inj in Hv.
  destruct kv1, kv2. simpl in *. by subst.
Qed.

Lemma item_pieces k : named k → Forall piece (map str_item k).
Proof.
  intros Hk. induction Hk; constructor; [by apply item_piece | done].
Qed.

Lemma dict_body_inj k1 k2 :
  named k1 → named k2 → dict_body k1 = dict_body k2 → k1 = k2.
Proof.
  intros H1 H2 Heq. unfold dict_body in Heq.
  apply join_comma_inj in Heq; try by apply item_pieces.
  apply map_inj_list in Heq; [done |].
  intros kv1 kv2 Hin1 Hin2. apply str_item_inj.
  - by apply (proj1 (Forall_forall _ _) H1).
  - by apply (proj1 (Forall_forall _ _) H2).
Qed.

Lemma has_dict_body c k :
  named k → ident_char c = false → has c int_chars = false →
  has c "': " = false → has c ", " = false → has c (dict_body k) = false.
Proof.
  intros Hk Hid Hint Hitem Hsep. apply has_join; [done |].
  apply Forall_forall. intros s Hs.
  apply list_elem_of_fmap in Hs as [kv [-> Hkv]].
  apply has_str_item; try done. by apply (proj1 (Forall_forall _ _) Hk).
Qed.

(** *** The key *)

Lemma cache_key_shape f a k :
  cache_key f a k
  = fn_name f
    +:+ String "(" (tuple_body a
                    +:+ String ")" (String "{" (dict_body k
                                                +:+ String "}" ""))).
Proof.
  unfold cache_key, str_tuple, str_dict.
  change ("(" +:+ tuple_body a +:+ ")")
    with (String "(" (tuple_body a +:+ ")")).
  rewrite app_cons, app_assoc. reflexivity.
Qed.

Lemma cache_key_inj f1 a1 k1 f2 a2 k2 :
  is_identifier (fn_name f1) = true → is_identifier (fn_name f2) = true →
  named k1 → named k2 →
  cache_key f1 a1 k1 = cache_key f2 a2 k2 →
  fn_name f1 = fn_name f2 ∧ a1 = a2 ∧ k1 = k2.
Proof.
  intros Hf1 Hf2 Hk1 Hk2 Heq. rewrite !cache_key_shape in Heq.
  apply split_at_char in Heq as [Hname Heq]; try by apply identifier_has.
  apply split_at_char in Heq as [Hargs Heq]; try by apply has_tuple_body.
  injection Heq as Heq.
  apply split_at_char in Heq as [Hkw _]; try by apply has_dict_body.
  split; [done |]. split; [by apply tuple_body_inj | by apply dict_body_inj].
Qed.

End KeyFacts.

(** C6, counterexample.  The key takes the function by its [__name__]
    alone: two functions of the same name in different modules, called
    without arguments, get the one key [fetch_news(){}]. *)
Lemma same_name_same_key : ¬ keys_never_collide.
Proof.
  intros Hinj.
  apply (Hinj fetch_news_api [] [] fetch_news_dashboard [] []).
  - left. discriminate.
  - reflexivity.
Qed.

(** C6, as the code has it.  The key is made of the [__name__] of the
    function and of the texts of its arguments.  For functions named by
    identifiers, called with integers and with integer keyword arguments,
    two calls that differ in the name of the function, in the positional
    arguments or in the keyword arguments (names, values or order) get
    different keys. *)
Theorem distinct_calls_distinct_keys (f1 f2 : pyfunc) (a1 a2 : list Z)
    (k1 k2 : list (string * Z)) :
  is_identifier (fn_name f1) = true → is_identifier (fn_name f2) = true →
  named k1 → named k2 →
  fn_name f1 ≠ fn_name f2 ∨ a1 ≠ a2 ∨ k1 ≠ k2 →
  cache_key f1 a1 k1 ≠ cache_key f2 a2 k2.
Proof.
  intros Hf1 Hf2 Hk1 Hk2 Hdiff Heq.
  destruct (KeyFacts.cache_key_inj f1 a1 k1 f2 a2 k2 Hf1 Hf2 Hk1 Hk2 Heq)
    as [Hname [Hargs Hkw]].
  destruct Hdiff as [Hd | [Hd | Hd]]; contradiction.
Qed.

Lemma distinct_calls_distinct_keys_witness :
  cache_key get_latest_news_fn [] [("count", 5%Z)]
  ≠ cache_key get_latest_news_fn [] [("count", 50%Z)].
Proof.
  apply (distinct_calls_distinct_keys get_latest_news_fn get_latest_news_fn
           [] [] [("count", 5%Z)] [("count", 50%Z)]).
  - reflexivity.
  - reflexivity.
  - constructor; [reflexivity | constructor].
  - constructor; [reflexivity | constructor].
  - right. right. discriminate.
Defined.

(** * Further properties *)

(** ** The refresh loop over many cycles *)

Section LoopFacts.

Variable find_a : string → option (gmap string string).

Lemma run_cons i inputs s :
  run find_a (i :: inputs) s = run find_a inputs (exec find_a i s).
Proof. reflexivity. Qed.

Lemma run_app inputs1 inputs2 s :
  run find_a (inputs1 ++ inputs2) s
  = run find_a inputs2 (run find_a inputs1 s).
Proof. unfold run. apply foldl_app. Qed.

(** An invariant of single statements holds along every run. *)
Lemma run_invariant (P : input → Prop) (I : refresher → Prop) :
  (∀ i s, P i → I s → I (exec find_a i s)) →
  ∀ inputs s, Forall P inputs → I s → I (run find_a inputs s).
Proof.
  intros Hstep inputs. induction inputs as [| i inputs IH]; intros s Hall Hs.
  - exact Hs.
  - rewrite run_cons. inversion Hall; subst. apply IH; [done |].
    by apply Hstep.
Qed.

Lemma quiet_on_exec c i s :
  fetches_nothing find_a i → quiet_on c s → quiet_on c (exec find_a i s).
Proof.
  unfold fetches_nothing, quiet_on, exec. intros Hf [Hc Hat].
  destruct Hat as [Hat | [Hat | Hat]]; rewrite Hat.
  - destruct (fetch_news find_a (in_net i)) as [r lines]. simpl in Hf.
    subst r. simpl. auto.
  - simpl. auto.
  - simpl. auto.
Qed.

Lemma assigns_items_exec i s :
  assigns_items s → assigns_items (exec find_a i s).
Proof.
  unfold assigns_items, exec. intros Hs.
  destruct (at_ s) as [| l | l | | |]; simpl; try done.
  - by destruct (fetch_news find_a (in_net i)) as [[l | e] lines].
  - by destruct l.
Qed.

Lemma dated_at_exec i s : dated_at s → dated_at (exec find_a i s).
Proof.
  intros [Hitems Hd]. split; [by apply assigns_items_exec |].
  unfold assigns_items, exec, dated in *.
  destruct (at_ s) as [| l | l | | |]; simpl in *; try done.
  - by destruct (fetch_news find_a (in_net i)) as [[l | e] lines].
  - by destruct l.
Qed.

End LoopFacts.

(** X1.  Over any number of statements and cycles of [update_cache] in
    which every fetch comes back empty, the shared dict stays the one the
    run started with, and [/status] keeps answering the same. *)
Theorem empty_fetches_keep_snapshot
    (find_a : string → option (gmap string string))
    (strftime : Z → string → string)
    (inputs : list input) (c : Cache) (lg : list string) :
  Forall (fetches_nothing find_a) inputs →
  shared (run find_a inputs (start c lg)) = c
  ∧ get_status strftime (shared (run find_a inputs (start c lg)))
    = get_status strftime c.
Proof.
  intros Hall.
  assert (Hq : quiet_on c (run find_a inputs (start c lg))).
  { apply (run_invariant find_a (fetches_nothing find_a)); [| done |].
    - intros i s. apply quiet_on_exec.
    - split; [done | by left]. }
  destruct Hq as [-> _]. done.
Qed.

Lemma empty_fetches_keep_snapshot_witness :
  shared (run SimpleHtml.find_a (replicate 9 failed_input)
            (start stale_cache []))
  = stale_cache.
Proof.
  apply (empty_fetches_keep_snapshot SimpleHtml.find_a no_format
           (replicate 9 failed_input) stale_cache []).
  repeat constructor.
Defined.

(** X2.  Along any run of [update_cache], whatever the fetches bring, a
    snapshot that has items never becomes empty again and a time of update
    that is set is never unset. *)
Theorem populated_stays_populated
    (find_a : string → option (gmap string string))
    (inputs : list input) (c : Cache) (lg : list string) :
  (news c ≠ [] → news (shared (run find_a inputs (start c lg))) ≠ [])
  ∧ (is_Some (last_update c) →
     is_Some (last_update (shared (run find_a inputs (start c lg))))).
Proof.
  split; intros Hc.
  - assert (H : assigns_items (run find_a inputs (start c lg))
                ∧ news (shared (run find_a inputs (start c lg))) ≠ []);
      [| by destruct H].
    apply (run_invariant find_a (fun _ => True)
             (fun s => assigns_items s ∧ news (shared s) ≠ [])).
    + intros i s _ [Hitems Hn]. split; [by apply assigns_items_exec |].
      unfold assigns_items, exec in *.
      destruct (at_ s) as [| l | l | | |]; simpl; try done.
      * by destruct (fetch_news find_a (in_net i)) as [[l | e] lines].
      * by destruct l.
    + by apply Forall_true.
    + by split.
  - apply (run_invariant find_a (fun _ => True)
             (fun s => is_Some (last_update (shared s)))).
    + intros i s _ Hs. unfold exec.
      destruct (at_ s) as [| l | l | | |]; simpl; try done.
      * by destruct (fetch_news find_a (in_net i)) as [[l | e] lines].
      * by destruct l.
    + by apply Forall_true.
    + done.
Qed.

Lemma populated_stays_populated_witness :
  news (shared (run SimpleHtml.find_a
                  [failed_input; fresh_input; fresh_input; fresh_input]
                  (start stale_cache []))) ≠ [].
Proof.
  apply (proj1 (populated_stays_populated SimpleHtml.find_a
                  [failed_input; fresh_input; fresh_input; fresh_input]
                  stale_cache [])).
  discriminate.
Defined.

(** X3.  The loop never writes [cache_duration]: every sleep of line 118
    lasts what the dict said at the start. *)
Theorem cache_duration_constant
    (find_a : string → option (gmap string string))
    (inputs : list input) (c : Cache) (lg : list string) :
  cache_duration (shared (run find_a inputs (start c lg))) = cache_duration c.
Proof.
  apply (run_invariant find_a (fun _ => True)
           (fun s => cache_duration (shared s) = cache_duration c)).
  - intros i s _ Hs. unfold exec.
    destruct (at_ s) as [| l | l | | |]; simpl; try done.
    + by destruct (fetch_news find_a (in_net i)) as [[l | e] lines].
    + by destruct l.
  - by apply Forall_true.
  - done.
Qed.

(** X4.  From a snapshot that has items exactly when it has a time of
    update (the empty one of a starting process is such), every state of
    every run has the same property, except the state between lines 112
    and 113, where the items are there already. *)
Theorem items_iff_dated
    (find_a : string → option (gmap string string))
    (inputs : list input) (c : Cache) (lg : list string) :
  dated c →
  at_ (run find_a inputs (start c lg)) ≠ AtSetTime →
  dated (shared (run find_a inputs (start c lg))).
Proof.
  intros Hc Hat.
  assert (H : dated_at (run find_a inputs (start c lg))).
  { apply (run_invariant find_a (fun _ => True)).
    - intros i s _. apply dated_at_exec.
    - by apply Forall_true.
    - split; [done | done]. }
  destruct H as [_ H].
  by destruct (at_ (run find_a inputs (start c lg))).
Qed.

Lemma items_iff_dated_witness :
  dated (shared (run SimpleHtml.find_a
                   [fresh_input; fresh_input; fresh_input; fresh_input;
                    fresh_input; failed_input]
                   (start initial_cache []))).
Proof.
  apply (items_iff_dated SimpleHtml.find_a
           [fresh_input; fresh_input; fresh_input; fresh_input;
            fresh_input; failed_input] initial_cache []).
  - split; reflexivity.
  - vm_compute. discriminate.
Defined.

(** X5.  How a cycle of [update_cache] ends.  A fetch that fails sends the
    thread to its sleep after the test, the dict untouched and one line in
    the log; an empty feed does the same and logs nothing; a feed with
    items reaches the sleep after the two assignments and the line of the
    update.  The handler of line 115 is never taken. *)
Theorem cycle_outcomes
    (find_a : string → option (gmap string string))
    (i j1 j2 j3 j4 : input) (c : Cache) (lg : list string) :
  match fetch_body find_a (in_net i) with
  | Raise e =>
      run find_a [i; j1] (start c lg)
      = {| at_ := AtSleep; shared := c;
           logged := lg ++ ["Error fetching news: " +:+ str_exn e] |}
  | Ret [] =>
      run find_a [i; j1] (start c lg)
      = {| at_ := AtSleep; shared := c; logged := lg |}
  | Ret news_items =>
      run find_a [i; j1; j2; j3; j4] (start c lg)
      = {| at_ := AtSleep;
           shared := set_last_update (in_now j3) (set_news news_items c);
           logged := lg ++ ["Cache updated at " +:+ str_int (in_now j3)] |}
  end.
Proof.
  assert (Hexec : exec find_a i (start c lg)
                  = match fetch_body find_a (in_net i) with
                    | Ret news_items =>
                        {| at_ := AtTest news_items; shared := c;
                           logged := lg |}
                    | Raise e =>
                        {| at_ := AtTest []; shared := c;
                           logged :=
                             lg ++ ["Error fetching news: " +:+ str_exn e] |}
                    end).
  { unfold exec, start, fetch_news. simpl.
    destruct (fetch_body find_a (in_net i)); simpl; [| done].
    by rewrite app_nil_r. }
  unfold run. simpl foldl. rewrite Hexec.
  destruct (fetch_body find_a (in_net i)) as [[| x l] | e]; reflexivity.
Qed.

(** ** The fetchers *)

(** X6.  For a response whose status is not between 400 and 599 (a 200,
    and a 204 or a 301 as well) and whose body parses, [fetch_news] returns
    one record per item of the feed, in the order of the feed, and logs
    nothing: no item is dropped, merged or reordered. *)
Theorem fetch_news_one_record_per_item
    (find_a : string → option (gmap string string))
    (status : Z) (items : list RawItem) :
  ¬ (400 ≤ status < 600)%Z →
  fetch_news find_a (Response status (Parsed items))
  = (Ret (map (normalize find_a) items), [])
  ∧ ∃ news_items,
      (fetch_news find_a (Response status (Parsed items))).1 = Ret news_items
      ∧ length news_items = length items.
Proof.
  intros Hst.
  assert (Hf : fetch_news find_a (Response status (Parsed items))
               = (Ret (map (normalize find_a) items), [])).
  { unfold fetch_news, fetch_body, raise_for_status. simpl.
    destruct (Z.leb_spec 400 status); destruct (Z.ltb_spec status 600);
      simpl; try reflexivity. lia. }
  split; [exact Hf |]. rewrite Hf. eexists. split; [reflexivity |].
  apply length_map.
Qed.

Lemma fetch_news_one_record_per_item_witness :
  fetch_news SimpleHtml.find_a (Response 301 (Parsed [fresh_raw; fresh_raw]))
  = (Ret (map (normalize SimpleHtml.find_a) [fresh_raw; fresh_raw]), []).
Proof.
  apply (proj1 (fetch_news_one_record_per_item SimpleHtml.find_a 301
                  [fresh_raw; fresh_raw] ltac:(lia))).
Defined.

Section DashboardFacts.

Variable find_a : string → result (option (gmap string string)).
Variable get_text : string → result string.
Variable to_datetime : string → option Z.
Variable timestamp_now : Z.

#[local] Abbreviation rows_of :=
  (dash_rows find_a get_text to_datetime timestamp_now).
#[local] Abbreviation row_of :=
  (dash_row find_a get_text to_datetime timestamp_now).

Lemma dash_rows_cons item rest :
  rows_of (item :: rest)
  = match row_of item with
    | Ret row =>
        match rows_of rest with
        | Ret rows => Ret (row :: rows)
        | Raise e => Raise e
        end
    | Raise e => Raise e
    end.
Proof. reflexivity. Qed.

Lemma dash_row_bad_date item text :
  raw_pubDate item = Some text → to_datetime text = None →
  ∃ e, row_of item = Raise e.
Proof.
  intros Hp Ht. unfold dash_row, dash_timestamp. rewrite Hp, Ht.
  destruct (dash_source get_text _) as [source | e]; [| by exists e].
  destruct (dash_link find_a _) as [link | e]; [| by exists e].
  by eexists.
Qed.

Lemma dash_row_good item :
  parses_description find_a get_text
    (text_or_empty (raw_description item)) →
  (∀ text, raw_pubDate item = Some text → is_Some (to_datetime text)) →
  ∃ row, row_of item = Ret row
         ∧ row_title row = text_or_empty (raw_title item).
Proof.
  intros [[tag Hfind] Htext] Hgood.
  unfold dash_row, dash_source, dash_link, dash_timestamp.
  rewrite Hfind.
  assert (Hsource : ∃ source,
            (if PyText.contains anchor_close
                  (text_or_empty (raw_description item))
             then
               text ← get_text
                        (PyText.last_piece
                           (PyText.split_sep anchor_close
                              (text_or_empty (raw_description item))));
               Ret (PyText.strip text)
             else Ret "") = Ret source).
  { destruct (PyText.contains anchor_close _); [| by eexists].
    destruct (Htext eq_refl) as [text ->]. by eexists. }
  destruct Hsource as [source ->].
  destruct (raw_pubDate item) as [text |].
  - destruct (Hgood text eq_refl) as [t ->]. simpl. eauto.
  - simpl. eauto.
Qed.

Lemma dash_rows_bad_date items item text :
  item ∈ items → raw_pubDate item = Some text →
  to_datetime text = None →
  ∃ e, rows_of items = Raise e.
Proof.
  intros Hin Hp Ht. induction Hin as [item rest | item other rest Hin IH].
  - rewrite dash_rows_cons.
    destruct (dash_row_bad_date item text Hp Ht) as [e ->]. eauto.
  - rewrite dash_rows_cons. destruct (row_of other) as [row | e]; [| eauto].
    destruct (IH Hp) as [e ->]. eauto.
Qed.

Lemma dash_rows_good items :
  (∀ item, item ∈ items →
           parses_description find_a get_text
             (text_or_empty (raw_description item))) →
  (∀ item text, item ∈ items → raw_pubDate item = Some text →
                is_Some (to_datetime text)) →
  ∃ rows, rows_of items = Ret rows
          ∧ map row_title rows
            = map (fun item => text_or_empty (raw_title item)) items.
Proof.
  induction items as [| item rest IH]; intros Hparse Hgood.
  - by exists [].
  - destruct (dash_row_good item) as [row [Hrow Htitle]].
    { apply Hparse. by left. }
    { intros text. apply Hgood. by left. }
    destruct IH as [rows [Hrows Htitles]].
    { intros it Hin. apply Hparse. by right. }
    { intros it text Hin. apply Hgood. by right. }
    exists (row :: rows). rewrite dash_rows_cons, Hrow, Hrows.
    split; [done |]. simpl. by rewrite Htitle, Htitles.
Qed.

End DashboardFacts.

(** X7.  In the fetcher of the dashboard one item whose date the library
    cannot read loses the whole feed: the exception leaves the loop, the
    frame returned is empty and one error is shown, whatever the other
    items are and whatever the HTML library does. *)
Theorem dash_bad_date_loses_feed
    (find_a : string → result (option (gmap string string)))
    (get_text : string → result string) (to_datetime : string → option Z)
    (timestamp_now : Z) (status : Z) (items : list RawItem)
    (item : RawItem) (text : string) :
  item ∈ items →
  raw_pubDate item = Some text →
  to_datetime text = None →
  ∃ msg,
    dash_fetch_news find_a get_text to_datetime timestamp_now
      (Response status (Parsed items))
    = ([], [msg]).
Proof.
  intros Hin Hp Ht.
  destruct (dash_rows_bad_date find_a get_text to_datetime timestamp_now
              items item text Hin Hp Ht) as [e He].
  unfold dash_fetch_news, dash_fetch_body, raise_for_status. simpl.
  destruct ((400 <=? status)%Z && (status <? 600)%Z); simpl.
  - eauto.
  - rewrite He. eauto.
Qed.

Lemma dash_bad_date_loses_feed_witness :
  ∃ msg,
    dash_fetch_news plain_find_a plain_get_text (fun _ => None) 0
      (Response 200 (Parsed [plain_item; fresh_raw]))
    = ([], [msg]).
Proof.
  apply (dash_bad_date_loses_feed plain_find_a plain_get_text
           (fun _ => None) 0 200 [plain_item; fresh_raw] fresh_raw
           "Tue, 03 Nov 2026 09:00:00 GMT").
  - right. left.
  - reflexivity.
  - reflexivity.
Defined.

(** X8.  When the status is not between 400 and 599, the body parses, the
    HTML library raises on the description of no item, and the library
    reads the date of every item that has one, the fetcher of the
    dashboard returns one row per item, in the order of the feed, with
    the titles of the items, and shows no error. *)
Theorem dash_one_row_per_item
    (find_a : string → result (option (gmap string string)))
    (get_text : string → result string) (to_datetime : string → option Z)
    (timestamp_now : Z) (status : Z) (items : list RawItem) :
  ¬ (400 ≤ status < 600)%Z →
  (∀ item, item ∈ items →
           parses_description find_a get_text
             (text_or_empty (raw_description item))) →
  (∀ item text, item ∈ items → raw_pubDate item = Some text →
                is_Some (to_datetime text)) →
  ∃ rows,
    dash_fetch_news find_a get_text to_datetime timestamp_now
      (Response status (Parsed items))
    = (rows, [])
    ∧ length rows = length items
    ∧ map row_title rows
      = map (fun item => text_or_empty (raw_title item)) items.
Proof.
  intros Hst Hparse Hgood.
  destruct (dash_rows_good find_a get_text to_datetime timestamp_now
              items Hparse Hgood) as [rows [Hrows Htitles]].
  exists rows. unfold dash_fetch_news, dash_fetch_body, raise_for_status.
  simpl.
  destruct (Z.leb_spec 400 status); destruct (Z.ltb_spec status 600);
    simpl; try lia; rewrite Hrows; (split; [done |]);
    (split; [| done]);
    by rewrite <- (length_map row_title), Htitles, length_map.
Qed.

Lemma dash_one_row_per_item_witness :
  ∃ rows,
    dash_fetch_news plain_find_a plain_get_text (fun _ => Some 7%Z) 0
      (Response 200 (Parsed [two_anchor_item; fresh_raw]))
    = (rows, [])
    ∧ length rows = 2
    ∧ map row_title rows = ["Ether climbs"; "Ether climbs"].
Proof.
  apply (dash_one_row_per_item plain_find_a plain_get_text
           (fun _ => Some 7%Z) 0 200 [two_anchor_item; fresh_raw]).
  - lia.
  - intros item _. split; [by eexists | intros _; by eexists].
  - intros item text _ _. by exists 7%Z.
Defined.

(** X25.  The HTML library raising on the description of one item also
    loses the whole feed of the dashboard: the frame returned is empty and
    one error is shown. *)
Theorem dash_bad_markup_loses_feed
    (find_a : string → result (option (gmap string string)))
    (get_text : string → result string) (to_datetime : string → option Z)
    (timestamp_now : Z) (status : Z) (items : list RawItem)
    (item : RawItem) (e : exn) :
  item ∈ items →
  find_a (text_or_empty (raw_description item)) = Raise e →
  ∃ msg,
    dash_fetch_news find_a get_text to_datetime timestamp_now
      (Response status (Parsed items))
    = ([], [msg]).
Proof.
  intros Hin Hraise.
  assert (Hrows : ∃ e', dash_rows find_a get_text to_datetime timestamp_now
                          items = Raise e').
  { induction Hin as [item rest | item other rest Hin IH].
    - rewrite dash_rows_cons. unfold dash_row at 1, dash_link.
      rewrite Hraise.
      destruct (dash_source get_text _) as [source | e0]; simpl; eauto.
    - rewrite dash_rows_cons.
      destruct (dash_row find_a get_text to_datetime timestamp_now other)
        as [row | e0]; [| eauto].
      destruct (IH Hraise) as [e' ->]. eauto. }
  destruct Hrows as [e' He'].
  unfold dash_fetch_news, dash_fetch_body, raise_for_status. simpl.
  destruct ((400 <=? status)%Z && (status <? 600)%Z); simpl.
  - eauto.
  - rewrite He'. eauto.
Qed.

Lemma dash_bad_markup_loses_feed_witness :
  ∃ msg,
    dash_fetch_news (fun _ => Raise (ParserError "expected name token"))
      plain_get_text (fun _ => Some 7%Z) 0
      (Response 200 (Parsed [plain_item; fresh_raw]))
    = ([], [msg]).
Proof.
  apply (dash_bad_markup_loses_feed
           (fun _ => Raise (ParserError "expected name token"))
           plain_get_text (fun _ => Some 7%Z) 0 200
           [plain_item; fresh_raw] plain_item
           (ParserError "expected name token")).
  - left.
  - reflexivity.
Defined.

(** ** Cleaning the markup *)

Module CleanFacts.

Import PyText TextFacts.

Lemma has_sub_tags c s skip :
  has c s = false → has c (sub_tags skip s) = false.
Proof.
  revert skip. induction s as [| a r IH]; intros skip Hs; [done |].
  change (has c (String a r)) with (Ascii.eqb a c || has c r) in Hs.
  apply orb_false_elim in Hs as [Ha Hr].
  destruct skip as [| k]; simpl; [| by apply IH].
  destruct (Ascii.eqb a "<"); [destruct (tag_rest r) |];
    simpl; rewrite ?Ha; by apply IH.
Qed.

(** In a text without newline the pattern fails after a [<] only when no
    [>] follows. *)
Lemma tag_rest_none s :
  has "010" s = false → tag_rest s = None → has ">" s = false.
Proof.
  induction s as [| a r IH]; [done |]. simpl. intros Hnl Hrest.
  apply orb_false_elim in Hnl as [Ha Hr].
  destruct (Ascii.eqb a ">"); [done |]. rewrite Ha in Hrest.
  destruct (tag_rest r); [done |]. by apply IH.
Qed.

Lemma tag_rest_some s n : tag_rest s = Some n → has ">" s = true.
Proof.
  revert n. induction s as [| a r IH]; intros n; [done |]. simpl.
  destruct (Ascii.eqb a ">"); [done |].
  destruct (Ascii.eqb a "010"); [done |].
  destruct (tag_rest r) as [m |]; [| done]. intros _. by apply (IH m).
Qed.

Lemma sub_tags_tagless s skip :
  has "010" s = false → tagless (sub_tags skip s) = true.
Proof.
  revert skip. induction s as [| a r IH]; intros skip Hnl; [done |].
  change (has "010" (String a r))
    with (Ascii.eqb a "010" || has "010" r) in Hnl.
  apply orb_false_elim in Hnl as [_ Hr].
  destruct skip as [| k]; simpl; [| by apply IH].
  destruct (Ascii.eqb a "<") eqn:Ha.
  - destruct (tag_rest r) as [n |] eqn:Hrest; [by apply IH |].
    simpl. rewrite Ha, IH by done.
    rewrite has_sub_tags; [done |]. by apply tag_rest_none.
  - simpl. rewrite Ha. by apply IH.
Qed.

Lemma sub_tags_of_tagless s : tagless s = true → sub_tags 0 s = s.
Proof.
  induction s as [| a r IH]; [done |]. simpl. intros Hs.
  apply andb_prop in Hs as [Ha Hr].
  destruct (Ascii.eqb a "<").
  - destruct (tag_rest r) as [n |] eqn:Hrest.
    + apply tag_rest_some in Hrest. by rewrite Hrest in Ha.
    + by rewrite IH.
  - by rewrite IH.
Qed.

Lemma tagless_without_open s : has "<" s = false → tagless s = true.
Proof.
  induction s as [| a r IH]; [done |]. simpl. intros Hs.
  apply orb_false_elim in Hs as [-> Hr]. by apply IH.
Qed.

(** *** White space *)

Lemma space_len_tail (u rest rest' : string) :
  u ≠ "" → blank_led rest' →
  space_len (u +:+ rest) = 0 → space_len (u +:+ rest') = 0.
Proof.
  intros Hu Hrest'.
  destruct u as [| c1 [| c2 [| c3 u]]]; [done | | | done].
  - change (String c1 "" +:+ rest) with (String c1 rest).
    change (String c1 "" +:+ rest') with (String c1 rest').
    unfold space_len.
    destruct (between 9 13 (code c1) || between 28 32 (code c1)); [done |].
    intros _. destruct Hrest' as [-> | [x ->]]; [done |].
    change (code " ") with 32%N.
    destruct x; by rewrite ?andb_false_r.
  - change (String c1 (String c2 "") +:+ rest)
      with (String c1 (String c2 rest)).
    change (String c1 (String c2 "") +:+ rest')
      with (String c1 (String c2 rest')).
    unfold space_len.
    destruct (between 9 13 (code c1) || between 28 32 (code c1)); [done |].
    destruct ((code c1 =? 194)%N
              && ((code c2 =? 133)%N || (code c2 =? 160)%N)); [done |].
    intros _. destruct Hrest' as [-> | [x ->]]; [done |].
    change (code " ") with 32%N. simpl.
    by rewrite ?andb_false_r.
Qed.

Lemma tight_before_tail tail tail' w :
  blank_led tail' → tight_before tail w → tight_before tail' w.
Proof.
  intros Htail'. induction w as [| c r IH]; [done |].
  intros [Hlen Hr]. split; [| by apply IH].
  by apply (space_len_tail (String c r) tail tail').
Qed.

Lemma tight_before_snoc c r w :
  tight_before (String c r) w → space_len (String c r) = 0 →
  tight_before r (snoc w c).
Proof.
  intros Hw Hc. induction w as [| a w IH]; [by split |].
  destruct Hw as [Hlen Hw]. split; [| by apply IH].
  rewrite app_cons, app_assoc. rewrite app_cons in Hlen. exact Hlen.
Qed.

Lemma flush_solid tail w : tight_before tail w → Forall solid (flush w).
Proof.
  intros Hw. destruct w as [| c r]; [constructor |].
  constructor; [| constructor]. split; [done |].
  apply (tight_before_tail tail); [right; by exists "" | done].
Qed.

Lemma split_ws_solid s skip w :
  match skip with
  | O => tight_before s w
  | S _ => w = ""
  end →
  Forall solid (split_ws skip w s).
Proof.
  revert skip w. induction s as [| c r IH]; intros skip w Hw.
  - destruct skip; [by apply (flush_solid "") | by subst].
  - destruct skip as [| k].
    + change (split_ws 0 w (String c r))
        with (match space_len (String c r) with
              | O => split_ws 0 (snoc w c) r
              | S k => flush w ++ split_ws k "" r
              end).
      destruct (space_len (String c r)) as [| k] eqn:Hlen.
      * apply IH. by apply tight_before_snoc.
      * apply Forall_app. split; [by apply (flush_solid (String c r)) |].
        apply IH. by destruct k.
    + subst w. simpl. apply IH. by destruct k.
Qed.

Lemma split_solid s : Forall solid (split s).
Proof. by apply split_ws_solid. Qed.

Lemma solid_space_len w tail :
  solid w → blank_led tail → space_len (w +:+ tail) = 0.
Proof.
  intros [Hne Hw] Htail. destruct w as [| c r]; [done |].
  destruct Hw as [Hlen _]. by apply (space_len_tail _ " ").
Qed.

Lemma join_cons_cons sep x y r :
  join sep (x :: y :: r) = x +:+ sep +:+ join sep (y :: r).
Proof. reflexivity. Qed.

(** A joined list of words is its first word and a blank-led rest. *)
Lemma join_solid_shape w ws :
  ∃ tail, join " " (w :: ws) = w +:+ tail ∧ blank_led tail.
Proof.
  destruct ws as [| y ws].
  - exists "". split; [by rewrite app_nil_r | by left].
  - exists (" " +:+ join " " (y :: ws)). split; [done |].
    right. by eexists.
Qed.

Lemma join_solid_space_len w ws :
  solid w → space_len (join " " (w :: ws)) = 0 ∧ join " " (w :: ws) ≠ "".
Proof.
  intros Hw. destruct (join_solid_shape w ws) as [tail [-> Htail]].
  split; [by apply solid_space_len |].
  destruct Hw as [Hne _]. by destruct w.
Qed.

Lemma lstrip_tight t : space_len t = 0 → lstrip_from 0 t = t.
Proof.
  intros Ht. destruct t as [| c r]; [done |].
  change (lstrip_from 0 (String c r))
    with (match space_len (String c r) with
          | O => String c r
          | S k => lstrip_from k r
          end).
  by rewrite Ht.
Qed.

Lemma all_space_tight t :
  t ≠ "" → space_len t = 0 → all_space 0 t = false.
Proof.
  intros Hne Ht. destruct t as [| c r]; [done |].
  change (all_space 0 (String c r))
    with (match space_len (String c r) with
          | O => false
          | S k => all_space k r
          end).
  by rewrite Ht.
Qed.

Lemma rstrip_app w tail :
  blank_led tail → tight_before " " w →
  rstrip (w +:+ tail) = w +:+ rstrip tail.
Proof.
  intros Htail. induction w as [| c r IH]; [done |].
  intros [Hlen Hr]. rewrite !app_cons.
  change (rstrip (String c (r +:+ tail)))
    with (if all_space 0 (String c (r +:+ tail)) then ""
          else String c (rstrip (r +:+ tail))).
  rewrite all_space_tight; [by rewrite IH | done |].
  rewrite <- app_cons. by apply (space_len_tail _ " ").
Qed.

Lemma rstrip_join ws : Forall solid ws → rstrip (join " " ws) = join " " ws.
Proof.
  intros Hws. induction Hws as [| w ws Hw Hws IH]; [done |].
  destruct ws as [| y ws].
  - simpl. rewrite <- (app_nil_r w) at 1.
    rewrite rstrip_app; [by rewrite app_nil_r | by left | by destruct Hw].
  - rewrite join_cons_cons.
    rewrite rstrip_app; [| right; by eexists | by destruct Hw].
    f_equal.
    change (" " +:+ join " " (y :: ws)) with (String " " (join " " (y :: ws))).
    inversion Hws as [| ? ? Hy _]; subst.
    destruct (join_solid_space_len y ws Hy) as [Hlen Hne].
    change (rstrip (String " " (join " " (y :: ws))))
      with (if all_space 0 (join " " (y :: ws)) then ""
            else String " " (rstrip (join " " (y :: ws)))).
    by rewrite all_space_tight, IH.
Qed.

Lemma strip_join ws : Forall solid ws → strip (join " " ws) = join " " ws.
Proof.
  intros Hws. unfold strip.
  assert (Hl : lstrip_from 0 (join " " ws) = join " " ws).
  { destruct Hws as [| w ws Hw _]; [done |].
    apply lstrip_tight. by apply join_solid_space_len. }
  rewrite Hl. by apply rstrip_join.
Qed.

Lemma strip_clean_html s : strip (clean_html s) = clean_html s.
Proof. unfold clean_html. apply strip_join, split_solid. Qed.

End CleanFacts.

(** ** Splitting on a separator *)

Module SplitFacts.

Import PyText TextFacts.

Lemma prefix_true sep s :
  String.prefix sep s = true → ∃ r, s = sep +:+ r.
Proof.
  revert s. induction sep as [| a sep IH]; intros s Hpre.
  - by exists s.
  - destruct s as [| b s]; [done |]. simpl in Hpre.
    destruct (ascii_dec a b) as [-> |]; [| done].
    destruct (IH s Hpre) as [r ->]. by exists r.
Qed.

Lemma length_app s t :
  String.length (s +:+ t) = String.length s + String.length t.
Proof.
  induction s as [| a s IH]; [done |]. rewrite app_cons. simpl. by rewrite IH.
Qed.

Lemma split_on_nonempty sep skip piece s : split_on sep skip piece s ≠ [].
Proof.
  revert skip piece. induction s as [| c r IH]; intros skip piece; [done |].
  destruct skip as [| k]; [| apply IH].
  change (split_on sep 0 piece (String c r))
    with (if String.prefix sep (String c r)
          then piece :: split_on sep (String.length sep - 1) "" r
          else split_on sep 0 (snoc piece c) r).
  destruct (String.prefix sep (String c r)); [done | apply IH].
Qed.

(** The bytes of a matched separator are passed over. *)
Lemma split_on_skip sep u piece s :
  split_on sep (String.length u) piece (u +:+ s) = split_on sep 0 piece s.
Proof. induction u as [| a u IH]; [done | exact IH]. Qed.

Lemma join_first sep x l :
  l ≠ [] → join sep (x :: l) = x +:+ sep +:+ join sep l.
Proof. by destruct l. Qed.

Lemma join_last sep l x :
  l ≠ [] → join sep (l ++ [x]) = join sep l +:+ sep +:+ x.
Proof.
  induction l as [| y l IH]; [done |]. intros _.
  destruct l as [| z l]; [done |].
  change ((y :: z :: l) ++ [x]) with (y :: ((z :: l) ++ [x])).
  rewrite join_first by done. rewrite IH by done.
  rewrite (join_first sep y (z :: l)) by done.
  by rewrite !app_assoc.
Qed.

(** [sep.join(s.split(sep))] is [s]. *)
Lemma join_split_on sep n s piece :
  sep ≠ "" → String.length s ≤ n →
  join sep (split_on sep 0 piece s) = piece +:+ s.
Proof.
  intros Hsep. revert s piece.
  induction n as [| n IH]; intros s piece Hlen.
  - destruct s; [| simpl in Hlen; lia]. simpl. by rewrite app_nil_r.
  - destruct s as [| c r]; [simpl; by rewrite app_nil_r |].
    change (split_on sep 0 piece (String c r))
      with (if String.prefix sep (String c r)
            then piece :: split_on sep (String.length sep - 1) "" r
            else split_on sep 0 (snoc piece c) r).
    destruct (String.prefix sep (String c r)) eqn:Hpre.
    + destruct (prefix_true _ _ Hpre) as [r' Hr'].
      destruct sep as [| a sep']; [done |].
      rewrite app_cons in Hr'. injection Hr' as Hc Hr. subst c r.
      rewrite join_first by apply split_on_nonempty.
      replace (String.length (String a sep') - 1)
        with (String.length sep') by (simpl; lia).
      rewrite split_on_skip, IH.
      * rewrite app_nil_l. by rewrite app_cons.
      * simpl in Hlen. rewrite length_app in Hlen. lia.
    + rewrite IH by (simpl in Hlen; lia). apply snoc_app.
Qed.

Lemma unmatched_before_snoc sep c r w :
  unmatched_before sep (String c r) w →
  String.prefix sep (String c r) = false →
  unmatched_before sep r (snoc w c).
Proof.
  intros Hw Hc. induction w as [| a w IH]; [by split |].
  destruct Hw as [Hpre Hw]. split; [| by apply IH].
  rewrite app_cons, app_assoc. rewrite app_cons in Hpre. exact Hpre.
Qed.

Lemma unmatched_contains sep w :
  sep ≠ "" → unmatched_before sep "" w → contains sep w = false.
Proof.
  intros Hsep. induction w as [| c r IH]; [by destruct sep |].
  intros [Hpre Hr]. rewrite app_nil_r in Hpre.
  change (contains sep (String c r))
    with (String.prefix sep (String c r) || contains sep r).
  by rewrite Hpre, IH.
Qed.

(** The last piece holds no separator. *)
Lemma last_piece_unmatched sep s skip piece :
  sep ≠ "" →
  match skip with
  | O => unmatched_before sep s piece
  | S _ => piece = ""
  end →
  contains sep (last_piece (split_on sep skip piece s)) = false.
Proof.
  intros Hsep. revert skip piece.
  induction s as [| c r IH]; intros skip piece Hp.
  - destruct skip.
    + by apply unmatched_contains.
    + subst piece. by destruct sep.
  - destruct skip as [| k]; [| subst piece; apply IH; by destruct k].
    change (split_on sep 0 piece (String c r))
      with (if String.prefix sep (String c r)
            then piece :: split_on sep (String.length sep - 1) "" r
            else split_on sep 0 (snoc piece c) r).
    destruct (String.prefix sep (String c r)) eqn:Hpre.
    + unfold last_piece.
      destruct (split_on sep (String.length sep - 1) "" r) as [| y l] eqn:Hl;
        [by apply split_on_nonempty in Hl |].
      change (List.last (piece :: y :: l) "") with (List.last (y :: l) "").
      rewrite <- Hl. apply IH. by destruct (String.length sep - 1).
    + apply IH. by apply unmatched_before_snoc.
Qed.

End SplitFacts.

(** ** The normalizer, further *)

(** X9.  A description in which no [<] occurs passes [re.sub] unchanged:
    its summary is the description with every run of white space turned
    into one blank and none left at the ends. *)
Theorem summary_without_markup
    (find_a : string → option (gmap string string)) (item : RawItem) :
  has "<" (text_or_empty (raw_description item)) = false →
  PyText.sub_tags 0 (text_or_empty (raw_description item))
  = text_or_empty (raw_description item)
  ∧ summary (normalize find_a item)
    = PyStr (PyText.join " "
               (PyText.split (text_or_empty (raw_description item)))).
Proof.
  intros Hd.
  assert (Hsub : PyText.sub_tags 0 (text_or_empty (raw_description item))
                 = text_or_empty (raw_description item)).
  { by apply CleanFacts.sub_tags_of_tagless, CleanFacts.tagless_without_open. }
  split; [done |]. unfold normalize, clean_html. simpl. by rewrite Hsub.
Qed.

Lemma summary_without_markup_witness :
  summary (normalize SimpleHtml.find_a plain_item) = PyStr "Plain text".
Proof.
  apply (proj2 (summary_without_markup SimpleHtml.find_a plain_item
                  eq_refl)).
Defined.

(** X10.  In a text without newline [re.sub] leaves no tag: in what it
    returns no [<] has a [>] after it, and applying it again changes
    nothing. *)
Theorem no_tag_left_on_one_line (s : string) :
  has "010" s = false →
  tagless (PyText.sub_tags 0 s) = true
  ∧ PyText.sub_tags 0 (PyText.sub_tags 0 s) = PyText.sub_tags 0 s.
Proof.
  intros Hnl.
  assert (Ht : tagless (PyText.sub_tags 0 s) = true)
    by by apply CleanFacts.sub_tags_tagless.
  split; [done | by apply CleanFacts.sub_tags_of_tagless].
Qed.

Lemma no_tag_left_on_one_line_witness :
  PyText.sub_tags 0 (PyText.sub_tags 0 scenario_description)
  = PyText.sub_tags 0 scenario_description.
Proof.
  apply (proj2 (no_tag_left_on_one_line scenario_description eq_refl)).
Defined.

Lemma source_unstripped
    (find_a : string → option (gmap string string)) (item : RawItem) :
  source (normalize find_a item)
  = PyStr (source_of (text_or_empty (raw_description item))).
Proof.
  unfold normalize. simpl. f_equal. unfold source_of.
  destruct (text_or_empty (raw_description item)); [done |].
  apply CleanFacts.strip_clean_html.
Qed.

(** X11.  What [clean_html] returns neither starts nor ends with white
    space, so the [strip] of line 96 changes nothing: the source of a
    record is the value of line 89 as it is. *)
Theorem strip_changes_nothing
    (find_a : string → option (gmap string string)) (item : RawItem)
    (raw_html : string) :
  PyText.strip (clean_html raw_html) = clean_html raw_html
  ∧ source (normalize find_a item)
    = PyStr (source_of (text_or_empty (raw_description item))).
Proof.
  split; [apply CleanFacts.strip_clean_html | apply source_unstripped].
Qed.

(** X12.  For a description in which [</a>] does not occur, the empty one
    included, the source of the record is its summary. *)
Theorem source_is_summary_without_anchor
    (find_a : string → option (gmap string string)) (item : RawItem) :
  PyText.contains anchor_close (text_or_empty (raw_description item))
  = false →
  source (normalize find_a item) = summary (normalize find_a item).
Proof.
  intros Habs.
  rewrite source_unstripped.
  unfold normalize. simpl. f_equal. unfold source_of, PyText.split_sep.
  destruct (text_or_empty (raw_description item)) as [| c r] eqn:Hd; [done |].
  by rewrite TextFacts.split_on_absent.
Qed.

Lemma source_is_summary_without_anchor_witness :
  source (normalize SimpleHtml.find_a plain_item)
  = summary (normalize SimpleHtml.find_a plain_item).
Proof.
  apply (source_is_summary_without_anchor SimpleHtml.find_a plain_item).
  reflexivity.
Defined.

(** X13.  For a description in which [</a>] occurs, the description is
    some text, [</a>], and a rest in which [</a>] does not occur, and the
    source of the record is that rest cleaned: the text after the last
    closing anchor tag. *)
Theorem source_after_last_anchor
    (find_a : string → option (gmap string string)) (item : RawItem) :
  PyText.contains anchor_close (text_or_empty (raw_description item)) = true →
  ∃ before rest,
    text_or_empty (raw_description item) = before +:+ anchor_close +:+ rest
    ∧ PyText.contains anchor_close rest = false
    ∧ source (normalize find_a item) = PyStr (clean_html rest).
Proof.
  intros Hocc. set (d := text_or_empty (raw_description item)) in *.
  assert (Hsep : anchor_close ≠ "") by done.
  pose proof (SplitFacts.join_split_on anchor_close (String.length d) d ""
                Hsep (le_n _)) as Hjoin.
  rewrite TextFacts.app_nil_l in Hjoin.
  pose proof (SplitFacts.last_piece_unmatched anchor_close d 0 "" Hsep I)
    as Hlast.
  fold (PyText.split_sep anchor_close d) in Hjoin, Hlast.
  destruct (exists_last (SplitFacts.split_on_nonempty anchor_close 0 "" d))
    as [init [rest Hsplit]].
  fold (PyText.split_sep anchor_close d) in Hsplit.
  rewrite Hsplit in Hjoin, Hlast. unfold PyText.last_piece in Hlast.
  rewrite last_last in Hlast.
  destruct init as [| x init].
  - simpl in Hjoin. rewrite Hjoin in Hlast. congruence.
  - rewrite SplitFacts.join_last in Hjoin by done.
    exists (PyText.join anchor_close (x :: init)), rest.
    split; [done |]. split; [done |].
    rewrite source_unstripped.
    fold d. unfold source_of. destruct d as [| c r] eqn:Hd; [done |].
    rewrite Hsplit. unfold PyText.last_piece. by rewrite last_last.
Qed.

Lemma source_after_last_anchor_witness :
  ∃ before rest,
    "<a href='http://a'>one</a> and <a href='http://b'>two</a>  Outlet "
    = before +:+ anchor_close +:+ rest
    ∧ PyText.contains anchor_close rest = false
    ∧ source (normalize SimpleHtml.find_a two_anchor_item)
      = PyStr (clean_html rest).
Proof.
  apply (source_after_last_anchor SimpleHtml.find_a two_anchor_item).
  reflexivity.
Defined.

(** X14.  An item without description, or with an empty one, gets the
    empty summary and the empty source; its link is the empty string when
    the HTML library finds no anchor in the empty text. *)
Theorem normalize_without_description
    (find_a : string → option (gmap string string)) (item : RawItem) :
  text_or_empty (raw_description item) = "" →
  find_a "" = None →
  summary (normalize find_a item) = PyStr ""
  ∧ source (normalize find_a item) = PyStr ""
  ∧ link (normalize find_a item) = PyStr "".
Proof.
  intros Hd Hfind. unfold normalize, extract_link. rewrite Hd, Hfind. done.
Qed.

Lemma normalize_without_description_witness :
  summary (normalize SimpleHtml.find_a bare_item) = PyStr ""
  ∧ source (normalize SimpleHtml.find_a bare_item) = PyStr ""
  ∧ link (normalize SimpleHtml.find_a bare_item) = PyStr "".
Proof.
  apply (normalize_without_description SimpleHtml.find_a bare_item);
    reflexivity.
Defined.

(** ** The keyed TTL cache, further *)

(** X15.  [set] on one key leaves what [get] returns for every other key
    as it was. *)
Theorem set_leaves_other_keys {K : Type} `{Countable K} {V : Type}
    (store : gmap K (entry V)) (k k' : K) (v : option V) (t now now' : Z) :
  k ≠ k' →
  cache_get now' k' (cache_set now k v t store) = cache_get now' k' store.
Proof. apply cache_get_set_other. Qed.

Lemma set_leaves_other_keys_witness :
  cache_get 5 "a" (cache_set 1 "b" (Some 2%nat) 300
                     (cache_set 0 "a" (Some 1%nat) 300 ∅))
  = Some 1%nat.
Proof.
  rewrite (set_leaves_other_keys (cache_set 0 "a" (Some 1%nat) 300 ∅)
             "b" "a" (Some 2%nat) 300 1 5); [reflexivity | discriminate].
Defined.

(** X16.  [set] on a key that is already there replaces the entry whole:
    the dict is the one a single [set] would have made, with the new
    value and an expiry counted from the new call, be it earlier than the
    old one. *)
Theorem last_set_wins {K : Type} `{Countable K} {V : Type}
    (store : gmap K (entry V)) (k : K) (v1 v2 : option V)
    (t1 t2 now1 now2 now' : Z) :
  cache_set now2 k v2 t2 (cache_set now1 k v1 t1 store)
  = cache_set now2 k v2 t2 store
  ∧ cache_get now' k (cache_set now2 k v2 t2 (cache_set now1 k v1 t1 store))
    = if (now' <? now2 + timedelta_seconds t2)%Z then v2 else None.
Proof.
  split.
  - unfold cache_set. apply insert_insert_eq.
  - apply cache_get_set.
Qed.

(** X17.  Nothing is ever evicted: [set] adds its key to the keys of the
    dict and removes none, so the dict never shrinks; an entry stays in
    the dict after its expiry, where [get] no longer returns it. *)
Theorem no_eviction {K : Type} `{Countable K} {V : Type}
    (store : gmap K (entry V)) (k : K) (v : option V) (t now now' : Z) :
  dom (cache_set now k v t store) = {[k]} ∪ dom store
  ∧ size store ≤ size (cache_set now k v t store)
  ∧ ((now + timedelta_seconds t ≤ now')%Z →
     cache_get now' k (cache_set now k v t store) = None
     ∧ is_Some (cache_set now k v t store !! k)).
Proof.
  split; [apply dom_insert_L |]. split.
  - apply dom_subseteq_size. unfold cache_set. rewrite dom_insert_L.
    set_solver.
  - intros Hexp. split.
    + rewrite cache_get_set.
      destruct (Z.ltb_spec now' (now + timedelta_seconds t)); [lia | done].
    + unfold cache_set. rewrite lookup_insert_eq. by eexists.
Qed.

Lemma no_eviction_witness :
  cache_get 300000000 "a" (cache_set 0 "a" (Some 1%nat) 300 ∅) = None
  ∧ is_Some (cache_set 0 "a" (Some 1%nat) 300 ∅ !! "a").
Proof.
  apply (proj2 (proj2 (no_eviction ∅ "a" (Some 1%nat) 300 0 300000000))).
  reflexivity.
Defined.

(** X18.  An entry set with a time to live of zero or less is never
    returned: not at the time of the [set], nor later. *)
Theorem nonpositive_ttl_never_read {K : Type} `{Countable K} {V : Type}
    (store : gmap K (entry V)) (k : K) (v : option V) (t now now' : Z) :
  (t ≤ 0)%Z → (now ≤ now')%Z →
  cache_get now' k (cache_set now k v t store) = None.
Proof.
  intros Ht Hnow. rewrite cache_get_set. unfold timedelta_seconds.
  destruct (Z.ltb_spec now' (now + t * 1000000)); [lia | done].
Qed.

Lemma nonpositive_ttl_never_read_witness :
  cache_get 0 "a" (cache_set 0 "a" (Some 1%nat) 0 ∅) = None.
Proof.
  apply (nonpositive_ttl_never_read ∅ "a" (Some 1%nat) 0 0 0); lia.
Defined.

(** ** Memoization, further *)

Section WrapperFacts.

Context {V : Type}.

Lemma wrapper_miss ttl f args kwargs (call : unit → option V) t_get t_set
    (store : gmap string (entry V)) :
  cache_get t_get (cache_key f args kwargs) store = None →
  wrapper ttl f args kwargs call t_get t_set store
  = (call tt, cache_set t_set (cache_key f args kwargs) (call tt) ttl store).
Proof. intros Hmiss. unfold wrapper. by rewrite Hmiss. Qed.

Lemma wrapper_store_other ttl f args kwargs (call : unit → option V)
    t_get t_set t key (store : gmap string (entry V)) :
  cache_key f args kwargs ≠ key →
  cache_get t key (wrapper ttl f args kwargs call t_get t_set store).2
  = cache_get t key store.
Proof.
  intros Hne. unfold wrapper.
  destruct (cache_get t_get (cache_key f args kwargs) store); [done |].
  simpl. by apply cache_get_set_other.
Qed.

End WrapperFacts.

(** X19.  After a call that found nothing in the memo and stored the
    response [r] at the time [t_set], every call with the same function
    and arguments made less than [ttl_seconds] after [t_set] returns [r]
    without calling the function, whatever the function would return by
    then, and leaves the memo as it is. *)
Theorem memo_serves_within_ttl {V : Type} (ttl : Z) (f : pyfunc)
    (args : list Z) (kwargs : list (string * Z)) (r : V)
    (call' : unit → option V) (t_get t_set t_get' t_set' : Z)
    (store : gmap string (entry V)) :
  cache_get t_get (cache_key f args kwargs) store = None →
  (t_get' - t_set < timedelta_seconds ttl)%Z →
  wrapper ttl f args kwargs call' t_get' t_set'
    (wrapper ttl f args kwargs (fun _ => Some r) t_get t_set store).2
  = (Some r,
     (wrapper ttl f args kwargs (fun _ => Some r) t_get t_set store).2).
Proof.
  intros Hmiss Ht.
  rewrite (wrapper_miss ttl f args kwargs (fun _ => Some r) t_get t_set
             store Hmiss).
  simpl. unfold wrapper. rewrite cache_get_set.
  destruct (Z.ltb_spec t_get' (t_set + timedelta_seconds ttl)); [done | lia].
Qed.

Lemma memo_serves_within_ttl_witness :
  (wrapper 300 get_news_fn [] [] (fun _ => Some 2%nat) 299999999 299999999
     (wrapper 300 get_news_fn [] [] (fun _ => Some 1%nat) 0 0 ∅).2).1
  = Some 1%nat.
Proof.
  rewrite (memo_serves_within_ttl 300 get_news_fn [] [] 1%nat
             (fun _ => Some 2%nat) 0 0 299999999 299999999 ∅);
    [reflexivity | reflexivity | reflexivity].
Defined.

(** X20.  Once [ttl_seconds] or more have passed since the response was
    stored, a call with the same function and arguments calls the
    function again, returns what it returns now and stores it with an
    expiry counted from this call. *)
Theorem memo_recomputes_after_ttl {V : Type} (ttl : Z) (f : pyfunc)
    (args : list Z) (kwargs : list (string * Z)) (r : option V)
    (call' : unit → option V) (t_get t_set t_get' t_set' : Z)
    (store : gmap string (entry V)) :
  cache_get t_get (cache_key f args kwargs) store = None →
  (timedelta_seconds ttl ≤ t_get' - t_set)%Z →
  wrapper ttl f args kwargs call' t_get' t_set'
    (wrapper ttl f args kwargs (fun _ => r) t_get t_set store).2
  = (call' tt,
     cache_set t_set' (cache_key f args kwargs) (call' tt) ttl store).
Proof.
  intros Hmiss Ht.
  rewrite (wrapper_miss ttl f args kwargs (fun _ => r) t_get t_set
             store Hmiss).
  simpl. rewrite wrapper_miss.
  - f_equal. unfold cache_set. apply insert_insert_eq.
  - rewrite cache_get_set.
    destruct (Z.ltb_spec t_get' (t_set + timedelta_seconds ttl)); [lia | done].
Qed.

Lemma memo_recomputes_after_ttl_witness :
  (wrapper 300 get_news_fn [] [] (fun _ => Some 2%nat) 300000000 300000000
     (wrapper 300 get_news_fn [] [] (fun _ => Some 1%nat) 0 0 ∅).2).1
  = Some 2%nat.
Proof.
  rewrite (memo_recomputes_after_ttl 300 get_news_fn [] [] (Some 1%nat)
             (fun _ => Some 2%nat) 0 0 300000000 300000000 ∅);
    [reflexivity | reflexivity | reflexivity].
Defined.

(** X21.  A result that is [None] is never served from the memo: the
    wrapper stores it, reads it back as a miss, and calls the function
    again on every call, however soon. *)
Theorem memo_never_serves_none {V : Type} (ttl : Z) (f : pyfunc)
    (args : list Z) (kwargs : list (string * Z))
    (call' : unit → option V) (t_get t_set t_get' t_set' : Z)
    (store : gmap string (entry V)) :
  cache_get t_get (cache_key f args kwargs) store = None →
  (wrapper ttl f args kwargs call' t_get' t_set'
     (wrapper ttl f args kwargs (fun _ => None) t_get t_set store).2).1
  = call' tt.
Proof.
  intros Hmiss.
  rewrite (wrapper_miss ttl f args kwargs (fun _ => None) t_get t_set
             store Hmiss).
  simpl. rewrite wrapper_miss; [done |]. rewrite cache_get_set.
  by destruct (t_get' <? t_set + timedelta_seconds ttl)%Z.
Qed.

Lemma memo_never_serves_none_witness :
  (wrapper 300 get_news_fn [] [] (fun _ => Some 2%nat) 1 1
     (wrapper 300 get_news_fn [] [] (fun _ => None) 0 0 ∅).2).1
  = Some 2%nat.
Proof.
  apply (memo_never_serves_none 300 get_news_fn [] []
           (fun _ => Some 2%nat) 0 0 1 1 ∅).
  reflexivity.
Defined.

(** ** The handlers, further *)

Section RouteFacts.

Variable strftime : Z → string → string.

Lemma latest_key_inj n m : latest_key n = latest_key m → n = m.
Proof.
  intros Heq. unfold latest_key in Heq.
  assert (Hnamed : ∀ z, named [("count", z)]) by by repeat constructor.
  destruct (KeyFacts.cache_key_inj get_latest_news_fn [] _
              get_latest_news_fn [] _ eq_refl eq_refl
              (Hnamed _) (Hnamed _) Heq) as [_ [_ Hkw]].
  injection Hkw as Hnm. lia.
Qed.

Lemma news_key_not_latest n : news_key ≠ latest_key n.
Proof.
  intros Heq. unfold news_key, latest_key in Heq.
  assert (Hnamed : named [("count", Z.of_N n)]) by by repeat constructor.
  destruct (KeyFacts.cache_key_inj get_news_fn [] [] get_latest_news_fn []
              _ eq_refl eq_refl (Forall_nil_2 _) Hnamed Heq)
    as [_ [_ Hkw]].
  discriminate.
Qed.

Lemma news_view_store t_get t_set a :
  news_cache (news_view strftime t_get t_set a).2
  = (wrapper 300 get_news_fn [] []
       (fun _ => Some (get_news strftime (snapshot a)))
       t_get t_set (news_cache a)).2.
Proof.
  unfold news_view. by destruct (wrapper _ _ _ _ _ _ _ _).
Qed.

Lemma latest_view_store count t_get t_set a :
  news_cache (latest_view strftime count t_get t_set a).2
  = (wrapper 300 get_latest_news_fn [] [("count", Z.of_N count)]
       (fun _ => Some (get_latest_news strftime (snapshot a)
                         (Z.of_N count)))
       t_get t_set (news_cache a)).2.
Proof.
  unfold latest_view. by destruct (wrapper _ _ _ _ _ _ _ _).
Qed.

End RouteFacts.

(** X22.  The routes do not share memoized responses: serving [/news]
    changes nothing of what the memo holds for [/news/latest/<m>], serving
    [/news/latest/<n>] changes nothing of what it holds for [/news], nor,
    when [n] and [m] differ, for [/news/latest/<m>]. *)
Theorem routes_keep_apart (strftime : Z → string → string) (a : app)
    (n m : N) (t_get t_set t : Z) :
  cache_get t (latest_key m)
    (news_cache (news_view strftime t_get t_set a).2)
  = cache_get t (latest_key m) (news_cache a)
  ∧ cache_get t news_key
      (news_cache (latest_view strftime n t_get t_set a).2)
    = cache_get t news_key (news_cache a)
  ∧ (n ≠ m →
     cache_get t (latest_key m)
       (news_cache (latest_view strftime n t_get t_set a).2)
     = cache_get t (latest_key m) (news_cache a)).
Proof.
  split; [| split].
  - rewrite news_view_store. apply wrapper_store_other.
    apply news_key_not_latest.
  - rewrite latest_view_store. apply wrapper_store_other.
    intros Heq. by apply (news_key_not_latest n).
  - intros Hnm. rewrite latest_view_store. apply wrapper_store_other.
    intros Heq. by apply latest_key_inj in Heq.
Qed.

Lemma routes_keep_apart_witness :
  cache_get 1 (latest_key 7)
    (news_cache (latest_view no_format 5 0 0 one_item_app).2)
  = None.
Proof.
  rewrite (proj2 (proj2 (routes_keep_apart no_format one_item_app 5 7
                           0 0 1))); [reflexivity | discriminate].
Defined.

(** X23.  Whatever the count, negative ones included, the items
    [get_latest_news] returns are the first items of the snapshot in
    their order; for a count from 0 to the number of items they are
    exactly that many, and the count reported is the count asked for. *)
Theorem latest_is_prefix (strftime : Z → string → string) (c : Cache)
    (count : Z) :
  body_news (get_latest_news strftime c count) `prefix_of` news c
  ∧ ((0 ≤ count ≤ len (news c))%Z →
     len (body_news (get_latest_news strftime c count)) = count
     ∧ body_count (get_latest_news strftime c count) = count).
Proof.
  simpl. unfold slice_to. split.
  - destruct (count <? 0)%Z; apply prefix_take.
  - intros [Hlo Hhi]. destruct (Z.ltb_spec count 0); [lia |].
    rewrite len_take. lia.
Qed.

Lemma latest_is_prefix_witness :
  len (body_news (get_latest_news no_format stale_cache 0)) = 0%Z
  ∧ body_count (get_latest_news no_format stale_cache 0) = 0%Z.
Proof.
  apply (proj2 (latest_is_prefix no_format stale_cache 0)).
  unfold len. simpl. lia.
Defined.

(** X24.  For a count that reaches the number of items, what
    [get_latest_news] gives [jsonify] is what [get_news] gives it for the
    same snapshot: the same status, time of update, count and items. *)
Theorem latest_agrees_with_news (strftime : Z → string → string)
    (c : Cache) (count : Z) :
  (len (news c) ≤ count)%Z →
  body_status (get_latest_news strftime c count)
  = body_status (get_news strftime c)
  ∧ body_last_update (get_latest_news strftime c count)
    = body_last_update (get_news strftime c)
  ∧ body_count (get_latest_news strftime c count)
    = body_count (get_news strftime c)
  ∧ body_news (get_latest_news strftime c count)
    = body_news (get_news strftime c).
Proof.
  intros Hle. simpl. rewrite slice_to_all by done.
  repeat split. lia.
Qed.

Lemma latest_agrees_with_news_witness :
  body_news (get_latest_news no_format stale_cache 3)
  = body_news (get_news no_format stale_cache).
Proof.
  apply (latest_agrees_with_news no_format stale_cache 3).
  unfold len. simpl. lia.
Defined.

(** ** A handler beside the refresh thread *)

Section ReadingFacts.

Variable find_a : string → option (gmap string string).
Variable strftime : Z → string → string.

Lemma last_update_kept inputs s :
  is_Some (last_update (shared s)) →
  is_Some (last_update (shared (run find_a inputs s))).
Proof.
  apply (run_invariant find_a (fun _ => True)
           (fun s => is_Some (last_update (shared s)))).
  - intros i s' _ Hs. unfold exec.
    destruct (at_ s') as [| l | l | | |]; simpl; try done.
    + by destruct (fetch_news find_a (in_net i)) as [[l | e] lines].
    + by destruct l.
  - by apply Forall_true.
Qed.

Lemma strftime_if_some {A : Type} fmt (default : A) wrap test value :
  (is_Some (last_update test) → is_Some (last_update value)) →
  is_Some (strftime_if strftime fmt default wrap test value).
Proof.
  intros Hkept. unfold strftime_if.
  destruct (last_update test) as [t |]; [| done].
  by destruct (Hkept (mk_is_Some _ _ eq_refl)) as [t' ->].
Qed.

Lemma get_news_reading_at c :
  get_news_reading strftime (reads_at c) = Some (get_news strftime c).
Proof.
  unfold get_news_reading, strftime_if, reads_at, get_news, formatted.
  simpl. by destruct (last_update c).
Qed.

End ReadingFacts.

(** X26.  [get_news] never raises beside the refresh thread: wherever the
    statements of [update_cache] fall between its reads of the dict, the
    time it formats is never [None] once its test saw one, and it returns
    a response.  When the thread executes nothing between the reads, the
    response is the one built from that state of the dict. *)
Theorem get_news_returns_beside_refresh
    (find_a : string → option (gmap string string))
    (strftime : Z → string → string) (s : refresher)
    (g0 g1 g2 g3 g4 g5 g6 : list input) :
  is_Some (get_news_reading strftime
             (reads_along find_a s g0 g1 g2 g3 g4 g5 g6))
  ∧ get_news_reading strftime (reads_along find_a s g0 [] [] [] [] [] [])
    = Some (get_news strftime (shared (run find_a g0 s))).
Proof.
  split; [| apply get_news_reading_at].
  unfold get_news_reading, reads_along. simpl.
  destruct (strftime_if_some strftime "%Y-%m-%d %H:%M:%S" None Some
              (shared (run find_a g0 s))
              (shared (run find_a g1 (run find_a g0 s))))
    as [shown ->]; [apply last_update_kept |].
  destruct (strftime_if_some strftime "%a, %d %b %Y %H:%M:%S GMT" ""
              (fun text => text)
              (shared (run find_a g5 (run find_a g4 (run find_a g3
                 (run find_a g2 (run find_a g1 (run find_a g0 s)))))))
              (shared (run find_a g6 (run find_a g5 (run find_a g4
                 (run find_a g3 (run find_a g2 (run find_a g1
                    (run find_a g0 s)))))))))
    as [modified ->]; [apply last_update_kept |].
  by eexists.
Qed.

(** X27.  The count [get_news] reports and the list it sends are read
    apart: when line 112 runs between the read of line 144 and that of
    line 145, bringing a list of another length, the response reports the
    number of the old items and carries the new ones. *)
Theorem count_read_apart_from_news
    (find_a : string → option (gmap string string))
    (strftime : Z → string → string)
    (i j1 j2 : input) (c : Cache) (lg : list string)
    (items : list NewsItem) :
  (fetch_news find_a (in_net i)).1 = Ret items →
  items ≠ [] →
  length items ≠ length (news c) →
  ∃ r,
    get_news_reading strftime
      (reads_along find_a (start c lg) [i; j1] [] [] [j2] [] [] [])
    = Some r
    ∧ body_count r = len (news c)
    ∧ body_news r = items
    ∧ ¬ well_counted r.
Proof.
  intros Hf Hne Hlen.
  destruct (exec_fetch find_a i c lg items Hf) as [lines Hexec].
  unfold reads_along, run. simpl. rewrite Hexec.
  destruct items as [| x items]; [done |]. simpl.
  unfold get_news_reading, strftime_if. simpl.
  destruct (last_update c); eexists; (split; [reflexivity |]);
    (split; [reflexivity |]); (split; [reflexivity |]);
    unfold well_counted, len; simpl; simpl in Hlen; lia.
Qed.

Lemma count_read_apart_from_news_witness :
  ∃ r,
    get_news_reading no_format
      (reads_along SimpleHtml.find_a (start initial_cache [])
         [fresh_input; fresh_input] [] [] [fresh_input] [] [] [])
    = Some r
    ∧ body_count r = 0%Z
    ∧ body_news r = fresh_items
    ∧ ¬ well_counted r.
Proof.
  apply (count_read_apart_from_news SimpleHtml.find_a no_format
           fresh_input fresh_input fresh_input initial_cache []
           fresh_items).
  - reflexivity.
  - discriminate.
  - simpl. lia.
Defined.
